(** * A model of the resilient API client layer

    The development follows the TypeScript sources module by module:

    - [ToastBus]   : lib/toastBus.ts (the notification channel);
    - [Client]     : api/client.ts (the Axios instance and its two interceptors);
    - [Documents]  : api/documents.ts (download helpers and the list operation).

    JavaScript strings are represented by the bytes of their UTF-8 encoding
    ([string] where a value is only stored or compared, [list ascii] where it
    is scanned), integer-valued numbers by [Z], objects used as dictionaries
    by [gmap], and module-level mutable variables by fields of an explicit
    state record that every operation threads through. *)

From Stdlib Require Import ZArith Ascii String List Lia Bool.
From stdpp Require Import gmap strings list fin_maps pretty.

Import ListNotations.
Local Open Scope string_scope.
Local Open Scope list_scope.

(** ** Completions

    A JavaScript call either returns a value or throws; an [async] function
    either fulfils or rejects.  Both are a [completion]. *)

Inductive completion (E A : Type) : Type :=
| Normal (a : A)
| Throw (e : E).
Arguments Normal {E A} a.
Arguments Throw {E A} e.

Definition bind {E A B} (c : completion E A) (k : A -> completion E B) : completion E B :=
  match c with
  | Normal a => k a
  | Throw e => Throw e
  end.

(** [try { c } catch { h }] *)
Definition try_catch {E A} (c : completion E A) (h : E -> completion E A) : completion E A :=
  match c with
  | Normal a => Normal a
  | Throw e => h e
  end.

(** * lib/toastBus.ts *)

Module ToastBus.

Inductive ToastType := success | error | warning | info.

Record ToastMessage := {
  message : string;
  type : option ToastType;
  durationMs : option Z
}.

(** A [ToastListener] is a function value.  The [Set] that holds the
    listeners compares them by identity, which is what the number stands
    for; what the function does when it is called is given separately by
    its [body]. *)
Abbreviation ToastListener := nat.

(** What a running listener can do to the channel: register another
    listener, or call an [unsubscribe] capability.  A listener is taken to
    return: it does not throw into [publishToast]. *)
Inductive BusCall :=
| Subscribe (l : ToastListener)
| Unsubscribe (l : ToastListener).

(** The ECMAScript [Set]: a list of entries in insertion order, in which a
    deleted entry is replaced by the value [empty] (here [None]) and new
    entries are appended. *)
Abbreviation SetData := (list (option ToastListener)).

Definition set_has (l : ToastListener) (es : SetData) : bool :=
  existsb (fun e => match e with Some l' => Nat.eqb l' l | None => false end) es.

Definition set_add (l : ToastListener) (es : SetData) : SetData :=
  if set_has l es then es else es ++ [Some l].

Definition set_delete (l : ToastListener) (es : SetData) : SetData :=
  map (fun e => match e with
                | Some l' => if Nat.eqb l' l then None else Some l'
                | None => None
                end) es.

(** The listeners that are registered, in registration order. *)
Definition registered (es : SetData) : list ToastListener := omap id es.

(** The module state: [const listeners = new Set<ToastListener>()], together
    with two observation logs that the source does not have: the toasts
    handed to [publishToast], and which listener was called with which
    toast. *)
Record Bus := {
  listeners : SetData;
  published : list ToastMessage;
  received : list (ToastListener * ToastMessage)
}.

Definition empty_bus : Bus :=
  {| listeners := []; published := []; received := [] |}.

Definition with_listeners (es : SetData) (b : Bus) : Bus :=
  {| listeners := es; published := published b; received := received b |}.

(** [subscribeToasts(listener)]: adds the listener and returns the
    capability that deletes it. *)
Definition unsubscribe (l : ToastListener) (b : Bus) : Bus :=
  with_listeners (set_delete l (listeners b)) b.

Definition subscribeToasts (l : ToastListener) (b : Bus) : Bus * (Bus -> Bus) :=
  (with_listeners (set_add l (listeners b)) b, unsubscribe l).

Section Publish.

(** The code of every listener. *)
Variable body : ToastListener -> list BusCall.

Definition run_call (b : Bus) (c : BusCall) : Bus :=
  match c with
  | Subscribe l => fst (subscribeToasts l b)
  | Unsubscribe l => unsubscribe l b
  end.

(** [listener(toast)] *)
Definition call_listener (l : ToastListener) (toast : ToastMessage) (b : Bus) : Bus :=
  fold_left run_call (body l)
    {| listeners := listeners b;
       published := published b;
       received := received b ++ [(l, toast)] |}.

(** [Set.prototype.forEach]: an index runs over the entry list, and the
    number of entries is read again after every callback.  The loop need
    not end (a listener may keep registering new ones), hence the fuel:
    [None] is a loop that has not ended yet. *)
Fixpoint forEach (fuel : nat) (index : nat) (toast : ToastMessage) (b : Bus) : option Bus :=
  match fuel with
  | O => None
  | S fuel' =>
      match listeners b !! index with
      | None => Some b
      | Some None => forEach fuel' (S index) toast b
      | Some (Some l) => forEach fuel' (S index) toast (call_listener l toast b)
      end
  end.

(** [publishToast(toast)] *)
Definition publishToast (fuel : nat) (toast : ToastMessage) (b : Bus) : option Bus :=
  forEach fuel 0 toast
    {| listeners := listeners b;
       published := published b ++ [toast];
       received := received b |}.

End Publish.

(** What a call of [publishToast] comes to when the listeners leave the
    channel alone: the toast is logged and every registered listener is
    called with it, in registration order. *)
Definition deliver (toast : ToastMessage) (b : Bus) : Bus :=
  {| listeners := listeners b;
     published := published b ++ [toast];
     received := received b ++ map (fun l => (l, toast)) (registered (listeners b)) |}.

(** A listener that only renders, as [ToastProvider]'s does. *)
Definition quiet (body : ToastListener -> list BusCall) : Prop :=
  forall l, body l = [].

(** From one state of the entry list to a later one: entries are appended
    or emptied, never filled in again. *)
Definition later (es es' : SetData) : Prop :=
  (length es <= length es')%nat /\
  forall j l, (j < length es)%nat -> es' !! j = Some (Some l) -> es !! j = Some (Some l).

End ToastBus.

(** * api/client.ts *)

Module Client.
Import ToastBus.

(** ** Errors and responses, as Axios hands them to the interceptors *)

(** A property value of a parsed response body, as far as the client looks
    at it: a string, or anything else. *)
Inductive JsValue :=
| JsString (s : string)
| JsOther.

(** [error.response.data] *)
Inductive ResponseData :=
| DataString (s : string)
| DataObject (fields : gmap string JsValue)
| DataOther.

Record AxiosResponse := {
  status : Z;
  data : ResponseData
}.

Record AxiosError := {
  code : option string;
  error_message : option string;
  response : option AxiosResponse
}.

(** [error.response?.status] *)
Definition response_status (error : AxiosError) : option Z :=
  status <$> response error.

(** ** Ambient state

    [localStorage], [window.location], the clock, the two module variables
    [lastToastKey] and [lastToastAt], and the notification channel.  The
    [effects] log records, in order, every [localStorage.removeItem] call
    and every assignment to [window.location.href]. *)

Inductive Effect :=
| RemoveItem (key : string)
| AssignHref (url : string).

Record World := {
  localStorage : gmap string string;
  pathname : string;
  effects : list Effect;
  now : Z;
  lastToastKey : string;
  lastToastAt : Z;
  bus : Bus
}.

Definition set_bus (b : Bus) (w : World) : World :=
  {| localStorage := localStorage w; pathname := pathname w; effects := effects w;
     now := now w; lastToastKey := lastToastKey w; lastToastAt := lastToastAt w;
     bus := b |}.

Definition set_last (key : string) (at_ : Z) (w : World) : World :=
  {| localStorage := localStorage w; pathname := pathname w; effects := effects w;
     now := now w; lastToastKey := key; lastToastAt := at_;
     bus := bus w |}.

Definition set_now (t : Z) (w : World) : World :=
  {| localStorage := localStorage w; pathname := pathname w; effects := effects w;
     now := t; lastToastKey := lastToastKey w; lastToastAt := lastToastAt w;
     bus := bus w |}.

(** [localStorage.removeItem(key)] *)
Definition removeItem (key : string) (w : World) : World :=
  {| localStorage := delete key (localStorage w); pathname := pathname w;
     effects := effects w ++ [RemoveItem key];
     now := now w; lastToastKey := lastToastKey w; lastToastAt := lastToastAt w;
     bus := bus w |}.

(** [window.location.href = url]: the navigation is started; the current
    location is not changed before the handler returns. *)
Definition assign_href (url : string) (w : World) : World :=
  {| localStorage := localStorage w; pathname := pathname w;
     effects := effects w ++ [AssignHref url];
     now := now w; lastToastKey := lastToastKey w; lastToastAt := lastToastAt w;
     bus := bus w |}.

(** A string in a condition: the empty string is falsy. *)
Definition truthy (s : string) : bool := negb (String.eqb s EmptyString).

(** [localStorage.getItem(key)] in a condition: the stored value when it is
    a non-empty string. *)
Definition getItem_truthy (key : string) (w : World) : option string :=
  match localStorage w !! key with
  | Some v => if truthy v then Some v else None
  | None => None
  end.

Definition MUTATING_METHODS : list string := ["POST"; "PUT"; "PATCH"; "DELETE"].
Definition ERROR_TOAST_DEDUP_WINDOW_MS : Z := 3000.

(** The initial values of the module variables. *)
Definition initial_lastToastKey : string := EmptyString.
Definition initial_lastToastAt : Z := 0.

Definition session_expired_toast : ToastMessage :=
  {| message := "Session expired. Please log in again.";
     type := Some warning; durationMs := None |}.

(** [InternalAxiosRequestConfig], with the parts the interceptor does not
    look at kept as they are. *)
Record InternalAxiosRequestConfig := {
  method : option string;
  headers : gmap string string;
  url : option string;
  params : list (string * string);
  request_data : option string
}.

Definition set_header (name value : string) (config : InternalAxiosRequestConfig)
  : InternalAxiosRequestConfig :=
  {| method := method config;
     headers := <[name := value]> (headers config);
     url := url config; params := params config;
     request_data := request_data config |}.

Section Interceptors.

(** The built-ins [String.prototype.trim] and [String.prototype.toUpperCase]
    and the listeners' code are parameters of the client. *)
Variable trim : string -> string.
Variable toUpperCase : string -> string.
Variable body : ToastListener -> list BusCall.

Definition extractErrorMessage (error : AxiosError) : string :=
  let from_message :=
    match error_message error with
    | Some m => if truthy (trim m) then m
                else "Unexpected network error. Please try again."
    | None => "Unexpected network error. Please try again."
    end in
  match data <$> response error with
  | Some (DataString s) => if truthy (trim s) then s else from_message
  | Some (DataObject fields) =>
      match fields !! "detail" with
      | Some (JsString detail) => if truthy (trim detail) then detail else from_message
      | _ => from_message
      end
  | _ => from_message
  end.

(** [`${status}:${message}`] with [status = error.response?.status ?? 'network'] *)
Definition toast_key (error : AxiosError) : string :=
  match response_status error with
  | Some s => pretty s
  | None => "network"
  end +:+ ":" +:+ extractErrorMessage error.

Definition error_toast (error : AxiosError) : ToastMessage :=
  {| message := extractErrorMessage error; type := Some ToastBus.error;
     durationMs := None |}.

(** The test of [publishErrorToast]. *)
Definition suppressed (key : string) (w : World) : bool :=
  String.eqb key (lastToastKey w)
  && (now w - lastToastAt w <? ERROR_TOAST_DEDUP_WINDOW_MS)%Z.

Definition publishErrorToast (fuel : nat) (error : AxiosError) (w : World) : option World :=
  let key := toast_key error in
  let now_ := now w in
  if suppressed key w then Some w
  else
    let w := set_last key now_ w in
    match publishToast body fuel (error_toast error) (bus w) with
    | Some b => Some (set_bus b w)
    | None => None
    end.

(** [(config.method || 'GET').toUpperCase()] *)
Definition effective_method (config : InternalAxiosRequestConfig) : string :=
  toUpperCase (match method config with
               | Some m => if truthy m then m else "GET"
               | None => "GET"
               end).

(** The request interceptor's first handler. *)
Definition request_onFulfilled (config : InternalAxiosRequestConfig) (w : World)
  : InternalAxiosRequestConfig :=
  let config :=
    match getItem_truthy "access_token" w with
    | Some token => set_header "Authorization" ("Bearer " +:+ token) config
    | None => config
    end in
  let method_ := effective_method config in
  if bool_decide (method_ ∈ MUTATING_METHODS) then
    match getItem_truthy "csrf_token" w with
    | Some csrfToken => set_header "x-csrf-token" csrfToken config
    | None => config
    end
  else config.

(** The response interceptor's second handler.  It returns
    [Promise.reject(error)]: the completion is always a [Throw]. *)
Definition response_onRejected (fuel : nat) (error : AxiosError) (w : World)
  : option (completion AxiosError AxiosResponse * World) :=
  if bool_decide (response_status error = Some 401%Z) then
    match publishToast body fuel session_expired_toast (bus w) with
    | None => None
    | Some b =>
        let w := set_bus b w in
        let w := removeItem "access_token" w in
        let w := removeItem "csrf_token" w in
        let w := removeItem "user" w in
        let w := if String.prefix "/login" (pathname w) then w
                 else assign_href "/login" w in
        Some (Throw error, w)
    end
  else
    if bool_decide (code error = Some "ERR_CANCELED") then Some (Throw error, w)
    else
      match publishErrorToast fuel error w with
      | None => None
      | Some w => Some (Throw error, w)
      end.

(** A run of failures: before each one the clock is set to the time at
    which it arrives. *)
Fixpoint fire_all (fuel : nat) (fires : list (Z * AxiosError)) (w : World) : option World :=
  match fires with
  | [] => Some w
  | (t, failure) :: rest =>
      match response_onRejected fuel failure (set_now t w) with
      | None => None
      | Some (_, w') => fire_all fuel rest w'
      end
  end.

End Interceptors.

(** ** Notions used to state the properties *)

(** A failure that is neither answered with 401 nor marked as cancelled. *)
Definition generic (failure : AxiosError) : Prop :=
  response_status failure <> Some 401%Z /\ code failure <> Some "ERR_CANCELED".

(** Every fire comes more than the window after the one before it. *)
Fixpoint spaced (previous : Z) (fires : list (Z * AxiosError)) : Prop :=
  match fires with
  | [] => True
  | (t, _) :: rest => (ERROR_TOAST_DEDUP_WINDOW_MS < t - previous)%Z /\ spaced t rest
  end.

(** The time of the last fire ([t] when there is none). *)
Definition final_time (fires : list (Z * AxiosError)) (t : Z) : Z :=
  fold_left (fun _ fire => fst fire) fires t.


(** Every fire has another key than the one before it. *)
Fixpoint changing_keys (trim : string -> string) (previous : string)
  (fires : list (Z * AxiosError)) : Prop :=
  match fires with
  | [] => True
  | (_, failure) :: rest =>
      toast_key trim failure <> previous /\ changing_keys trim (toast_key trim failure) rest
  end.

(** The first part of a key: the status as a decimal numeral, or the word
    [network]. *)
Definition status_text (failure : AxiosError) : string :=
  match response_status failure with
  | Some s => pretty s
  | None => "network"
  end.

(** Strings of digits and dashes, and strings without a colon. *)
Definition numeral_char (c : ascii) : bool :=
  ((48 <=? nat_of_ascii c)%nat && (nat_of_ascii c <=? 57)%nat) || Ascii.eqb c "-".

Fixpoint numeral (s : string) : bool :=
  match s with
  | EmptyString => true
  | String c s' => numeral_char c && numeral s'
  end.

Fixpoint colon_free (s : string) : bool :=
  match s with
  | EmptyString => true
  | String c s' => negb (Ascii.eqb c ":") && colon_free s'
  end.


(** The ASCII part of the two built-ins, for running the model. *)
Definition ascii_upper (c : ascii) : ascii :=
  let n := nat_of_ascii c in
  if (97 <=? n)%nat && (n <=? 122)%nat then ascii_of_nat (n - 32) else c.

Fixpoint ascii_toUpperCase (s : string) : string :=
  match s with
  | EmptyString => EmptyString
  | String c s' => String (ascii_upper c) (ascii_toUpperCase s')
  end.

Definition ascii_space (c : ascii) : bool :=
  let n := nat_of_ascii c in
  ((9 <=? n)%nat && (n <=? 13)%nat) || (n =? 32)%nat.

Fixpoint trim_start (s : string) : string :=
  match s with
  | EmptyString => EmptyString
  | String c s' => if ascii_space c then trim_start s' else s
  end.

Definition ascii_trim (s : string) : string :=
  String.rev (trim_start (String.rev (trim_start s))).

End Client.

(** * api/documents.ts *)

Module Documents.

(** ** Strings that are scanned *)

Definition chars (s : string) : list ascii := list_ascii_of_string s.

Definition code_in (lo hi : nat) (c : ascii) : bool :=
  ((lo <=? nat_of_ascii c) && (nat_of_ascii c <=? hi))%nat.

(** Canonicalisation under the [i] flag (without [u]): for the ASCII
    patterns used here, two characters match when they are equal up to the
    case of an ASCII letter. *)
Definition canonicalize (c : ascii) : ascii :=
  if code_in 97 122 c then ascii_of_nat (nat_of_ascii c - 32) else c.

Fixpoint strip_prefix_ci (pattern s : list ascii) : option (list ascii) :=
  match pattern, s with
  | [], _ => Some s
  | p :: pattern', c :: s' =>
      if Ascii.eqb (canonicalize p) (canonicalize c) then strip_prefix_ci pattern' s'
      else None
  | _ :: _, [] => None
  end.

(** Whether [pattern] stands somewhere in [s], the case of ASCII letters
    set aside. *)
Fixpoint contains_ci (pattern s : list ascii) : bool :=
  match strip_prefix_ci pattern s with
  | Some _ => true
  | None =>
      match s with
      | [] => false
      | _ :: s' => contains_ci pattern s'
      end
  end.

(** The longest prefix without [stop]: a greedy [[^stop]*]. *)
Fixpoint span_not (stop : ascii) (s : list ascii) : list ascii :=
  match s with
  | [] => []
  | c :: s' => if Ascii.eqb c stop then [] else c :: span_not stop s'
  end.

(** A greedy [[^stop]+] needs one character at least. *)
Definition plus (captured : list ascii) : option (list ascii) :=
  match captured with
  | [] => None
  | _ :: _ => Some captured
  end.

Definition semicolon : ascii := ascii_of_nat 59.
Definition double_quote : ascii := ascii_of_nat 34.
Definition percent : ascii := ascii_of_nat 37.

(** [/filename\*=UTF-8''([^;]+)/i] tried at the start of [s]: group 1. *)
Definition utf8_at (s : list ascii) : option (list ascii) :=
  match strip_prefix_ci (chars "filename*=UTF-8''") s with
  | Some rest => plus (span_not semicolon rest)
  | None => None
  end.

(** The second pattern of [extractFilename] (the word "filename=", an
    optional double quote, a greedy group of one or more characters other
    than the double quote, an optional double quote; flag [i]) tried at the
    start of [s]: group 1.  The optional opening quote is taken when it is
    there (giving it back leaves the quote in front of the group, which
    then fails), and the optional closing quote never makes the greedy
    group give anything back. *)
Definition plain_at (s : list ascii) : option (list ascii) :=
  match strip_prefix_ci (chars "filename=") s with
  | Some (c :: rest) =>
      if Ascii.eqb c double_quote then plus (span_not double_quote rest)
      else plus (span_not double_quote (c :: rest))
  | Some [] => None
  | None => None
  end.

(** [RegExp.prototype.exec]: the leftmost start position that matches. *)
Fixpoint exec (at_start : list ascii -> option (list ascii)) (s : list ascii)
  : option (list ascii) :=
  match at_start s with
  | Some captured => Some captured
  | None =>
      match s with
      | [] => None
      | _ :: s' => exec at_start s'
      end
  end.

(** ** [encodeURIComponent] and [decodeURIComponent] *)

Inductive URIError := URI_malformed.

(** uriUnescaped: letters, digits and [- _ . ! ~ * ' ( )]. *)
Definition uriUnescaped (c : ascii) : bool :=
  code_in 65 90 c || code_in 97 122 c || code_in 48 57 c
  || existsb (Ascii.eqb c) (chars "-_.!~*'()").

Definition hex_digit (n : nat) : ascii :=
  nth n (chars "0123456789ABCDEF") (ascii_of_nat 48).

Definition escape (c : ascii) : list ascii :=
  [percent; hex_digit (nat_of_ascii c / 16); hex_digit (nat_of_ascii c mod 16)].

(** Every character that is not unescaped is replaced by the escapes of the
    bytes of its UTF-8 encoding, which are the bytes of the representation. *)
Definition encode_char (c : ascii) : list ascii :=
  if uriUnescaped c then [c] else escape c.

Definition encodeURIComponent (s : list ascii) : list ascii :=
  flat_map encode_char s.

Definition hex_value (c : ascii) : option nat :=
  if code_in 48 57 c then Some (nat_of_ascii c - 48)%nat
  else if code_in 65 70 c then Some (nat_of_ascii c - 55)%nat
  else if code_in 97 102 c then Some (nat_of_ascii c - 87)%nat
  else None.

(** ParseHexOctet *)
Definition parse_octet (h1 h2 : ascii) : option ascii :=
  match hex_value h1, hex_value h2 with
  | Some hi, Some lo => Some (ascii_of_nat (16 * hi + lo))
  | _, _ => None
  end.

(** The number of leading 1 bits of an octet (5 stands for five or more). *)
Definition leading_ones (b : ascii) : nat :=
  if code_in 0 127 b then 0
  else if code_in 128 191 b then 1
  else if code_in 192 223 b then 2
  else if code_in 224 239 b then 3
  else if code_in 240 247 b then 4
  else 5.

Definition continuation : ascii -> bool := code_in 128 191.

(** Whether the octets are the UTF-8 encoding of one code point (the
    well-formed byte sequences of the Unicode standard, of two bytes and
    more). *)
Definition well_formed_utf8 (octets : list ascii) : bool :=
  match octets with
  | [b1; b2] => code_in 194 223 b1 && continuation b2
  | [b1; b2; b3] =>
      (code_in 224 224 b1 && code_in 160 191 b2 && continuation b3)
      || (code_in 225 236 b1 && continuation b2 && continuation b3)
      || (code_in 237 237 b1 && code_in 128 159 b2 && continuation b3)
      || (code_in 238 239 b1 && continuation b2 && continuation b3)
  | [b1; b2; b3; b4] =>
      (code_in 240 240 b1 && code_in 144 191 b2 && continuation b3 && continuation b4)
      || (code_in 241 243 b1 && continuation b2 && continuation b3 && continuation b4)
      || (code_in 244 244 b1 && code_in 128 143 b2 && continuation b3 && continuation b4)
  | _ => false
  end.

Definition cmap {E A B} (f : A -> B) (c : completion E A) : completion E B :=
  bind c (fun a => Normal (f a)).

(** The abstract operation Decode with an empty preserve set.  [pending] is
    the number of continuation escapes still expected and [octets] the
    bytes of the current sequence read so far. *)
Fixpoint Decode (pending : nat) (octets : list ascii) (s : list ascii)
  : completion URIError (list ascii) :=
  match s with
  | [] =>
      match pending with
      | O => Normal []
      | S _ => Throw URI_malformed
      end
  | c :: s1 =>
      if Ascii.eqb c percent then
        match s1 with
        | h1 :: h2 :: s2 =>
            match parse_octet h1 h2 with
            | None => Throw URI_malformed
            | Some B =>
                match pending with
                | O =>
                    match leading_ones B with
                    | O => cmap (cons B) (Decode 0 [] s2)
                    | 1%nat => Throw URI_malformed
                    | S (S m) =>
                        if (2 <? m)%nat then Throw URI_malformed
                        else Decode (S m) [B] s2
                    end
                | 1%nat =>
                    if well_formed_utf8 (octets ++ [B])
                    then cmap (app (octets ++ [B])) (Decode 0 [] s2)
                    else Throw URI_malformed
                | S p => Decode p (octets ++ [B]) s2
                end
            end
        | _ => Throw URI_malformed
        end
      else
        match pending with
        | O => cmap (cons c) (Decode 0 [] s1)
        | S _ => Throw URI_malformed
        end
  end.

Definition decodeURIComponent (s : list ascii) : completion URIError (list ascii) :=
  Decode 0 [] s.

(** A string is the representation of a JavaScript string without lone
    surrogates when it is a sequence of ASCII bytes and well-formed
    multi-byte sequences. *)
Inductive utf8 : list ascii -> Prop :=
| utf8_nil : utf8 []
| utf8_ascii c s : code_in 0 127 c = true -> utf8 s -> utf8 (c :: s)
| utf8_multi octets s : well_formed_utf8 octets = true -> utf8 s -> utf8 (octets ++ s).

(** ** [extractFilename] *)

Definition extractFilename (contentDisposition : option (list ascii)) (fallback : list ascii)
  : completion URIError (list ascii) :=
  match contentDisposition with
  | None | Some [] => Normal fallback
  | Some header =>
      match exec utf8_at header with
      | Some (c :: captured) =>
          try_catch (decodeURIComponent (c :: captured))
                    (fun _ => Normal (c :: captured))
      | _ =>
          match exec plain_at header with
          | Some (c :: captured) => Normal (c :: captured)
          | _ => Normal fallback
          end
      end
  end.

(** ** [triggerBrowserDownload] *)

Record Blob := {
  blob_parts : list ascii;
  blob_type : string
}.

(** The [<a>] element the function builds. *)
Record Anchor := {
  href : nat;
  download : list ascii
}.

(** The part of the browser the function touches: the store of object
    URLs ([createObjectURL] adds an entry under a fresh URL, here a number,
    and [revokeObjectURL] removes it), the children of [document.body], and
    the save actions that were started. *)
Record Browser := {
  object_urls : gmap nat Blob;
  next_url : nat;
  body_children : list Anchor;
  saves : list (nat * list ascii)
}.

Inductive DOMException := ClickFailed.

Definition createObjectURL (blob : Blob) (br : Browser) : nat * Browser :=
  (next_url br,
   {| object_urls := <[next_url br := blob]> (object_urls br);
      next_url := S (next_url br);
      body_children := body_children br;
      saves := saves br |}).

Definition revokeObjectURL (u : nat) (br : Browser) : Browser :=
  {| object_urls := delete u (object_urls br);
     next_url := next_url br;
     body_children := body_children br;
     saves := saves br |}.

Definition appendChild (link : Anchor) (br : Browser) : Browser :=
  {| object_urls := object_urls br;
     next_url := next_url br;
     body_children := body_children br ++ [link];
     saves := saves br |}.

Definition same_anchor (a b : Anchor) : bool :=
  Nat.eqb (href a) (href b) && bool_decide (download a = download b).

Fixpoint remove_first (link : Anchor) (children : list Anchor) : list Anchor :=
  match children with
  | [] => []
  | c :: rest => if same_anchor c link then rest else c :: remove_first link rest
  end.

Definition removeChild (link : Anchor) (br : Browser) : Browser :=
  {| object_urls := object_urls br;
     next_url := next_url br;
     body_children := remove_first link (body_children br);
     saves := saves br |}.

Section Download.

(** Whether [link.click()] throws.  In a browser it does not: it fires a
    click event, and what a listener throws meanwhile is reported, not
    thrown on.  The parameter says what the function would do if it did. *)
Variable click_throws : Anchor -> bool.

(** [link.click()] *)
Definition click (link : Anchor) (br : Browser) : completion DOMException unit * Browser :=
  if click_throws link then (Throw ClickFailed, br)
  else (Normal tt,
        {| object_urls := object_urls br;
           next_url := next_url br;
           body_children := body_children br;
           saves := saves br ++ [(href link, download link)] |}).

(** The statements run one after the other; nothing catches. *)
Definition triggerBrowserDownload (blob : Blob) (filename : list ascii) (br : Browser)
  : completion DOMException unit * Browser :=
  let (url_, br) := createObjectURL blob br in
  let link := {| href := url_; download := filename |} in
  let br := appendChild link br in
  match click link br with
  | (Throw e, br) => (Throw e, br)
  | (Normal _, br) =>
      let br := removeChild link br in
      let br := revokeObjectURL url_ br in
      (Normal tt, br)
  end.

End Download.

(** ** [documentsApi.getDocuments] *)

Module DocumentFilters.
Record t := {
  status : option string;
  classification : option string;
  country : option string;
  min_confidence : option Z;
  skip : option Z;
  limit : option Z;
  page : option Z;
  search : option string;
  crawl_session_id : option Z
}.
(** [{}], the default value of the parameter. *)
Definition empty : t :=
  {| status := None; classification := None; country := None;
     min_confidence := None; skip := None; limit := None; page := None;
     search := None; crawl_session_id := None |}.
End DocumentFilters.

(** [response.data] as the server sent it: any of the fields of the result
    type may be there or not. *)
Module Payload.
Record t (Document : Type) := {
  documents : option (list Document);
  total : option Z;
  limit : option Z;
  offset : option Z;
  has_more : option bool;
  items : option (list Document);
  pages : option Z;
  page : option Z;
  page_size : option Z
}.
Arguments documents {Document} _.
Arguments total {Document} _.
Arguments limit {Document} _.
Arguments offset {Document} _.
Arguments has_more {Document} _.
Arguments items {Document} _.
Arguments pages {Document} _.
Arguments page {Document} _.
Arguments page_size {Document} _.
(** [{}] *)
Definition empty {Document} : t Document :=
  {| documents := None; total := None; limit := None; offset := None;
     has_more := None; items := None; pages := None; page := None;
     page_size := None |}.
End Payload.

Module DocumentListResponse.
Record t (Document : Type) := {
  documents : list Document;
  total : Z;
  limit : Z;
  offset : Z;
  has_more : bool;
  items : list Document;
  pages : Z;
  page : Z;
  page_size : Z
}.
Arguments documents {Document} _.
Arguments total {Document} _.
Arguments limit {Document} _.
Arguments offset {Document} _.
Arguments has_more {Document} _.
Arguments items {Document} _.
Arguments pages {Document} _.
Arguments page {Document} _.
Arguments page_size {Document} _.
End DocumentListResponse.

(** [a || b] on an optional number: [undefined], [null] and [0] are falsy. *)
Definition or_number (a : option Z) (b : Z) : Z :=
  match a with
  | Some n => if (n =? 0)%Z then b else n
  | None => b
  end.

(** [a || b] on an optional array: every array is truthy. *)
Definition or_array {A} (a : option (list A)) (b : list A) : list A :=
  match a with
  | Some l => l
  | None => b
  end.

(** ** Division

    A number of the program is a double; the model has the integers
    among them.  A division of two integers is modelled as the processor
    does it: the quotient is rounded to the nearest double, which has a
    mantissa of 53 bits and an exponent, and of two nearest doubles the one
    with the even mantissa is taken.  The exponent is not bounded here: the
    quotient of two integers that are doubles is never too large for a
    double, and where it is too small for a normal double it is still
    between 0 and 1, where [Math.ceil] gives what it gives here. *)

(** [2 ^ x] for [x] at or above 0, and 1 below. *)
Definition pow2 (x : Z) : Z := (2 ^ Z.max 0 x)%Z.

(** The integer nearest to [n / d], the even one of two. *)
Definition round_half_even (n d : Z) : Z :=
  let f := (n / d)%Z in
  let r := (n mod d)%Z in
  if (2 * r <? d)%Z then f
  else if (d <? 2 * r)%Z then (f + 1)%Z
  else if Z.even f then f else (f + 1)%Z.

(** The exponent [L] with [2 ^ L <= a / b < 2 ^ (L + 1)], for positive
    [a] and [b]: the difference of the two logarithms, or one less. *)
Definition binade (a b : Z) : Z :=
  let k := (Z.log2 a - Z.log2 b)%Z in
  if (b * pow2 k <=? a * pow2 (- k))%Z then k else (k - 1)%Z.

(** [a / b] for positive integers: the mantissa [m] and the exponent [e]
    of the double [m * 2 ^ e] nearest to the quotient. *)
Definition divide (a b : Z) : Z * Z :=
  let e := (binade a b - 52)%Z in
  (round_half_even (a * pow2 (- e)) (b * pow2 e), e).

(** [Math.ceil] and [Math.floor] of the double [m * 2 ^ e]. *)
Definition Math_ceil (x : Z * Z) : Z :=
  (- ((- (fst x * pow2 (snd x))) / pow2 (- snd x)))%Z.

Definition Math_floor (x : Z * Z) : Z :=
  ((fst x * pow2 (snd x)) / pow2 (- snd x))%Z.

(** [Math.ceil(a / b)] for integers and [b] not zero: 0 for a quotient
    that is 0; for a negative quotient the ceiling is the opposite of the
    floor of the opposite. *)
Definition ceil_div (a b : Z) : Z :=
  if ((a =? 0) || (b =? 0))%Z then 0%Z
  else if Bool.eqb (0 <? a)%Z (0 <? b)%Z
       then Math_ceil (divide (Z.abs a) (Z.abs b))
       else (- Math_floor (divide (Z.abs a) (Z.abs b)))%Z.

(** How a request through the shared client can fail.
    [MalformedResponse] is the failure of a client that is set to refuse a
    body it cannot parse.  This client keeps the defaults of axios and is
    not: a response with a status of success and a body that is not what
    the server should send arrives like any other, and the request does
    not fail. *)
Inductive Failure :=
| NetworkError
| HttpError (status : Z)
| Canceled
| MalformedResponse
| Thrown (what : string).

Section GetDocuments.

(** The type [Document] of [../types]. *)
Variable Document : Type.

(** [await client.get(path, { params })]: what the request comes back
    with, interceptors included; [None] is a response without a body. *)
Variable client_get :
  string -> list (string * string) -> completion Failure (option (Payload.t Document)).

Definition EMPTY_RESPONSE : DocumentListResponse.t Document :=
  {| DocumentListResponse.documents := [];
     DocumentListResponse.total := 0;
     DocumentListResponse.limit := 20;
     DocumentListResponse.offset := 0;
     DocumentListResponse.has_more := false;
     DocumentListResponse.items := [];
     DocumentListResponse.pages := 1;
     DocumentListResponse.page := 1;
     DocumentListResponse.page_size := 20 |}.

(** [params.append(key, value.toString())] for every entry of [filters]
    that is not [undefined] or [null]. *)
Definition search_params (filters : DocumentFilters.t) : list (string * string) :=
  omap (fun kv : string * option string => pair (fst kv) <$> snd kv)
    [ ("status", DocumentFilters.status filters);
      ("classification", DocumentFilters.classification filters);
      ("country", DocumentFilters.country filters);
      ("min_confidence", pretty <$> DocumentFilters.min_confidence filters);
      ("skip", pretty <$> DocumentFilters.skip filters);
      ("limit", pretty <$> DocumentFilters.limit filters);
      ("page", pretty <$> DocumentFilters.page filters);
      ("search", DocumentFilters.search filters);
      ("crawl_session_id", pretty <$> DocumentFilters.crawl_session_id filters) ].

(** [{ ...base, ...data }] *)
Definition spread (base : DocumentListResponse.t Document) (data : Payload.t Document)
  : DocumentListResponse.t Document :=
  {| DocumentListResponse.documents :=
       default (DocumentListResponse.documents base) (Payload.documents data);
     DocumentListResponse.total :=
       default (DocumentListResponse.total base) (Payload.total data);
     DocumentListResponse.limit :=
       default (DocumentListResponse.limit base) (Payload.limit data);
     DocumentListResponse.offset :=
       default (DocumentListResponse.offset base) (Payload.offset data);
     DocumentListResponse.has_more :=
       default (DocumentListResponse.has_more base) (Payload.has_more data);
     DocumentListResponse.items :=
       default (DocumentListResponse.items base) (Payload.items data);
     DocumentListResponse.pages :=
       default (DocumentListResponse.pages base) (Payload.pages data);
     DocumentListResponse.page :=
       default (DocumentListResponse.page base) (Payload.page data);
     DocumentListResponse.page_size :=
       default (DocumentListResponse.page_size base) (Payload.page_size data) |}.

Definition getDocuments (filters : DocumentFilters.t)
  : completion Failure (DocumentListResponse.t Document) :=
  try_catch
    (let params := search_params filters in
     bind (client_get "/api/documents" params) (fun response_data =>
     let data := default Payload.empty response_data in
     let docs := or_array (Payload.documents data) [] in
     let total := or_number (Payload.total data) 0 in
     let limit := or_number (Payload.limit data)
                    (or_number (DocumentFilters.limit filters) 20) in
     let base := spread EMPTY_RESPONSE data in
     Normal
       {| DocumentListResponse.limit := DocumentListResponse.limit base;
          DocumentListResponse.offset := DocumentListResponse.offset base;
          DocumentListResponse.has_more := DocumentListResponse.has_more base;
          DocumentListResponse.documents := docs;
          DocumentListResponse.items := docs;
          DocumentListResponse.total := total;
          DocumentListResponse.pages :=
            (let p := ceil_div total limit in if (p =? 0)%Z then 1%Z else p);
          DocumentListResponse.page := or_number (DocumentFilters.page filters) 1;
          DocumentListResponse.page_size := limit |}))
    (fun _ => Normal EMPTY_RESPONSE).

End GetDocuments.

(** ** Further operations of the module *)

Definition star : ascii := ascii_of_nat 42.
Definition equals : ascii := ascii_of_nat 61.

(** ** [getDocumentDownloadUrl] *)

(** [API_URL] is [import.meta.env.VITE_API_URL || ''] and the identifier an
    integer. *)
Definition getDocumentDownloadUrl (API_URL : list ascii) (documentId : Z)
  (token : option (list ascii)) : list ascii :=
  let url_ := API_URL ++ chars "/api/documents/" ++ chars (pretty documentId)
              ++ chars "/download" in
  match token with
  | None | Some [] => url_
  | Some (c :: token') => url_ ++ chars "?token=" ++ encodeURIComponent (c :: token')
  end.

(** ** [downloadDocument] and [downloadAllDocuments] *)

(** A response with [responseType: 'blob']: the headers, when there are
    any, by their lower-case names, and the payload. *)
Record BlobResponse := {
  response_headers : option (gmap string (list ascii));
  response_data : list ascii
}.

(** [String(response.headers?.['content-disposition'] ?? '')] *)
Definition content_disposition (response : BlobResponse) : list ascii :=
  match response_headers response with
  | Some hs => default [] (hs !! "content-disposition")
  | None => []
  end.

(** What can leave the two download functions. *)
Inductive DownloadError :=
| RequestFailed (failure : Failure)
| DecodeFailed (e : URIError)
| SaveFailed (e : DOMException).

Section Downloads.

Variable click_throws : Anchor -> bool.

(** [await client.get(path, { params, responseType: 'blob' })] *)
Variable client_get_blob :
  string -> list (string * string) -> completion Failure BlobResponse.

Definition downloadDocument (documentId : Z) (br : Browser)
  : completion DownloadError unit * Browser :=
  match client_get_blob ("/api/documents/" +:+ pretty documentId +:+ "/download") [] with
  | Throw failure => (Throw (RequestFailed failure), br)
  | Normal response =>
      let contentDisposition := content_disposition response in
      match extractFilename (Some contentDisposition)
              (chars ("document_" +:+ pretty documentId +:+ ".pdf")) with
      | Throw e => (Throw (DecodeFailed e), br)
      | Normal filename =>
          let blob := {| blob_parts := response_data response;
                         blob_type := "application/pdf" |} in
          match triggerBrowserDownload click_throws blob filename br with
          | (Throw e, br') => (Throw (SaveFailed e), br')
          | (Normal _, br') => (Normal tt, br')
          end
      end
  end.

Definition downloadAllDocuments (crawlSessionId : option Z) (br : Browser)
  : completion DownloadError unit * Browser :=
  let params :=
    match crawlSessionId with
    | Some id => if (id =? 0)%Z then [] else [("crawl_session_id", pretty id)]
    | None => []
    end in
  match client_get_blob "/api/documents/download-all/zip" params with
  | Throw failure => (Throw (RequestFailed failure), br)
  | Normal response =>
      let contentDisposition := content_disposition response in
      match extractFilename (Some contentDisposition)
              (chars ("policycheck_documents_"
                      +:+ match crawlSessionId with
                          | Some id => pretty id
                          | None => "all"
                          end
                      +:+ ".zip")) with
      | Throw e => (Throw (DecodeFailed e), br)
      | Normal filename =>
          let blob := {| blob_parts := response_data response;
                         blob_type := "application/zip" |} in
          match triggerBrowserDownload click_throws blob filename br with
          | (Throw e, br') => (Throw (SaveFailed e), br')
          | (Normal _, br') => (Normal tt, br')
          end
      end
  end.

End Downloads.

(** ** [exportToCSV] *)

Definition newline : ascii := ascii_of_nat 10.
Definition comma : ascii := ascii_of_nat 44.

(** The text of a cell with every double quote doubled (the [replace] of
    [exportToCSV]), and the cell between two double quotes. *)
Definition csv_escape (cell : list ascii) : list ascii :=
  flat_map (fun c => if Ascii.eqb c double_quote then [double_quote; double_quote] else [c])
    cell.

Definition csv_cell (cell : list ascii) : list ascii :=
  [double_quote] ++ csv_escape cell ++ [double_quote].

(** [parts.join(separator)] *)
Fixpoint join (separator : list ascii) (parts : list (list ascii)) : list ascii :=
  match parts with
  | [] => []
  | [part] => part
  | part :: rest => part ++ separator ++ join separator rest
  end.

Definition csv_row (cells : list (list ascii)) : list ascii :=
  join [comma] (map csv_cell cells).

Definition csv_headers : list (list ascii) :=
  map chars ["ID"; "Insurer"; "Policy Type"; "Classification"; "Country";
             "Confidence"; "Status"; "Source URL"].

Section Exporting.

Variable Document : Type.

(** The eight cells of a document as [String(cell)] gives them: the
    identifier, six text fields, and the confidence as a percentage
    ([toFixed(0)] and a percent sign). *)
Variable cells_of : Document -> list (list ascii).

Variable click_throws : Anchor -> bool.

(** [date] is [new Date().toISOString().slice(0, 10)]. *)
Definition exportToCSV (date : list ascii) (docs : list Document) (br : Browser)
  : completion DOMException unit * Browser :=
  let rows := map cells_of docs in
  let csv := join [newline] (join [comma] csv_headers :: map csv_row rows) in
  let blob := {| blob_parts := csv; blob_type := "text/csv;charset=utf-8;" |} in
  triggerBrowserDownload click_throws blob
    (chars "policycheck_export_" ++ date ++ chars ".csv") br.

End Exporting.

End Documents.

(** * pages/Library.tsx: the state of the page *)

Module Library.
Import Documents.

(** The state the component keeps with [useState]. *)
Record View (Document : Type) := {
  docs : list Document;
  total : Z;
  page : Z;
  pages : Z;
  search : string;
  countryFilter : string;
  loading : bool
}.
Arguments docs {Document} _.
Arguments total {Document} _.
Arguments page {Document} _.
Arguments pages {Document} _.
Arguments search {Document} _.
Arguments countryFilter {Document} _.
Arguments loading {Document} _.

(** What the user does. *)
Inductive Event :=
| SearchChanged (value : string)
| CountryChanged (value : string)
| Previous
| Next.

Section Page.

Variable Document : Type.

Definition initial : View Document :=
  {| docs := []; total := 0; page := 1; pages := 1;
     search := EmptyString; countryFilter := EmptyString; loading := true |}.

(** The [onChange] and [onClick] handlers. *)
Definition handle (event : Event) (v : View Document) : View Document :=
  match event with
  | SearchChanged value =>
      {| docs := docs v; total := total v; page := 1; pages := pages v;
         search := value; countryFilter := countryFilter v; loading := loading v |}
  | CountryChanged value =>
      {| docs := docs v; total := total v; page := 1; pages := pages v;
         search := search v; countryFilter := value; loading := loading v |}
  | Previous =>
      {| docs := docs v; total := total v; page := Z.max 1 (page v - 1); pages := pages v;
         search := search v; countryFilter := countryFilter v; loading := loading v |}
  | Next =>
      {| docs := docs v; total := total v; page := Z.min (pages v) (page v + 1);
         pages := pages v;
         search := search v; countryFilter := countryFilter v; loading := loading v |}
  end.

(** [value || undefined] *)
Definition or_undefined (value : string) : option string :=
  if String.eqb value EmptyString then None else Some value.

(** The filters [load] passes to [searchLibrary]. *)
Definition filters_of (v : View Document) : DocumentFilters.t :=
  {| DocumentFilters.status := None;
     DocumentFilters.classification := None;
     DocumentFilters.country := or_undefined (countryFilter v);
     DocumentFilters.min_confidence := None;
     DocumentFilters.skip := None;
     DocumentFilters.limit := Some 20%Z;
     DocumentFilters.page := Some (page v);
     DocumentFilters.search := or_undefined (search v);
     DocumentFilters.crawl_session_id := None |}.

(** [load]: the request through [searchLibrary], which is [getDocuments],
    and the three setters; the [catch] keeps the state as it is. *)
Definition load
  (client_get :
     string -> list (string * string) -> completion Failure (option (Payload.t Document)))
  (v : View Document) : View Document :=
  match getDocuments Document client_get (filters_of v) with
  | Normal resp =>
      {| docs := DocumentListResponse.items resp;
         total := DocumentListResponse.total resp;
         page := page v;
         pages := DocumentListResponse.pages resp;
         search := search v; countryFilter := countryFilter v; loading := false |}
  | Throw _ =>
      {| docs := docs v; total := total v; page := page v; pages := pages v;
         search := search v; countryFilter := countryFilter v; loading := false |}
  end.

(** Whether an event changed one of the values the effect that calls
    [load] depends on; React runs the effect again only then. *)
Definition reloads (before after : View Document) : bool :=
  negb ((page before =? page after)%Z
        && String.eqb (search before) (search after)
        && String.eqb (countryFilter before) (countryFilter after)).

(** A session after the page has loaded: the user acts, and when that
    changed the search text, the country or the page number, the page
    loads again, with the answer the request then gets.  Every load has
    finished when the next event comes. *)
Fixpoint session
  (steps : list (Event * completion Failure (option (Payload.t Document))))
  (v : View Document) : View Document :=
  match steps with
  | [] => v
  | (event, answer) :: rest =>
      session rest
        (if reloads v (handle event v)
         then load (fun _ _ => answer) (handle event v)
         else handle event v)
  end.

End Page.

(** An answer without a negative total or limit. *)
Definition plausible {Document} (answer : completion Failure (option (Payload.t Document)))
  : Prop :=
  match answer with
  | Normal (Some data) =>
      (forall t, Payload.total data = Some t -> (0 <= t)%Z) /\
      (forall l, Payload.limit data = Some l -> (0 <= l)%Z)
  | _ => True
  end.

End Library.

(** * Sample inputs *)

Module Samples.
Import ToastBus.

Definition hello : ToastMessage :=
  {| message := "PDF download started."; type := Some success; durationMs := None |}.

(** Listener 1 registers listener 2 when it is called; listener 2 only
    receives. *)
Definition registering_body (l : ToastListener) : list BusCall :=
  if Nat.eqb l 1 then [Subscribe 2%nat] else [].

Definition quiet_body (l : ToastListener) : list BusCall := [].

Definition bus_with (ls : list ToastListener) : Bus :=
  fold_left (fun b l => fst (subscribeToasts l b)) ls empty_bus.

Definition server_error : Client.AxiosError :=
  {| Client.code := Some "ERR_BAD_RESPONSE";
     Client.error_message := Some "Request failed with status code 500";
     Client.response :=
       Some {| Client.status := 500;
               Client.data := Client.DataObject
                                {[ "detail" := Client.JsString "Database unavailable" ]} |} |}.

Definition unauthorized : Client.AxiosError :=
  {| Client.code := Some "ERR_BAD_REQUEST";
     Client.error_message := Some "Request failed with status code 401";
     Client.response := Some {| Client.status := 401; Client.data := Client.DataOther |} |}.

Definition aborted : Client.AxiosError :=
  {| Client.code := Some "ERR_CANCELED";
     Client.error_message := Some "canceled";
     Client.response := None |}.

(** The cancellation marker on a failure that also carries a 401
    response. *)
Definition aborted_unauthorized : Client.AxiosError :=
  {| Client.code := Some "ERR_CANCELED";
     Client.error_message := Some "canceled";
     Client.response := Some {| Client.status := 401; Client.data := Client.DataOther |} |}.

Definition signed_in : gmap string string :=
  {[ "access_token" := "eyJhbGciOi"; "csrf_token" := "c5rf"; "user" := "alice";
     "theme" := "dark" ]}.

Definition world_at (path : string) : Client.World :=
  {| Client.localStorage := signed_in;
     Client.pathname := path;
     Client.effects := [];
     Client.now := 0;
     Client.lastToastKey := Client.initial_lastToastKey;
     Client.lastToastAt := Client.initial_lastToastAt;
     Client.bus := bus_with [7%nat] |}.

Definition post_request : Client.InternalAxiosRequestConfig :=
  {| Client.method := Some "post";
     Client.headers := {[ "Content-Type" := "application/json" ]};
     Client.url := Some "/api/documents/3/approve";
     Client.params := [];
     Client.request_data := None |}.

Definition get_request : Client.InternalAxiosRequestConfig :=
  {| Client.method := None;
     Client.headers := {[ "Content-Type" := "application/json" ]};
     Client.url := Some "/api/documents";
     Client.params := [("limit", "20")];
     Client.request_data := None |}.

Definition click_works (link : Documents.Anchor) : bool := false.

Definition pdf : Documents.Blob :=
  {| Documents.blob_parts := Documents.chars "%PDF-1.7";
     Documents.blob_type := "application/pdf" |}.

Definition fresh_browser : Documents.Browser :=
  {| Documents.object_urls := ∅;
     Documents.next_url := 0;
     Documents.body_children := [];
     Documents.saves := [] |}.

(** The response of the scenario:
    [{documents: [], total: 0, limit: 20, offset: 0, has_more: false}]. *)
Definition empty_page : Documents.Payload.t string :=
  {| Documents.Payload.documents := Some [];
     Documents.Payload.total := Some 0%Z;
     Documents.Payload.limit := Some 20%Z;
     Documents.Payload.offset := Some 0%Z;
     Documents.Payload.has_more := Some false;
     Documents.Payload.items := None;
     Documents.Payload.pages := None;
     Documents.Payload.page := None;
     Documents.Payload.page_size := None |}.

(** A response that brings an [items] field of its own. *)
Definition page_with_items : Documents.Payload.t string :=
  {| Documents.Payload.documents := Some ["a.pdf"; "b.pdf"];
     Documents.Payload.total := Some 45%Z;
     Documents.Payload.limit := Some 20%Z;
     Documents.Payload.offset := Some 0%Z;
     Documents.Payload.has_more := Some true;
     Documents.Payload.items := Some ["stale.pdf"];
     Documents.Payload.pages := Some 99%Z;
     Documents.Payload.page := Some 7%Z;
     Documents.Payload.page_size := None |}.

Definition answers (data : Documents.Payload.t string)
  (path : string) (params : list (string * string))
  : completion Documents.Failure (option (Documents.Payload.t string)) :=
  Normal (Some data).

Definition offline (path : string) (params : list (string * string))
  : completion Documents.Failure (option (Documents.Payload.t string)) :=
  Throw Documents.NetworkError.

(** A name with a two-byte character (U+00E9), a space and a semicolon. *)
Definition accented_name : list ascii :=
  Documents.chars "r" ++ [ascii_of_nat 195; ascii_of_nat 169]
  ++ Documents.chars "sum; v2.pdf".

Definition page_three : Documents.DocumentFilters.t :=
  {| Documents.DocumentFilters.status := None;
     Documents.DocumentFilters.classification := None;
     Documents.DocumentFilters.country := Some "NZ";
     Documents.DocumentFilters.min_confidence := None;
     Documents.DocumentFilters.skip := None;
     Documents.DocumentFilters.limit := Some 20%Z;
     Documents.DocumentFilters.page := Some 3%Z;
     Documents.DocumentFilters.search := None;
     Documents.DocumentFilters.crawl_session_id := None |}.

Definition not_found : Client.AxiosError :=
  {| Client.code := Some "ERR_BAD_REQUEST";
     Client.error_message := Some "Request failed with status code 404";
     Client.response :=
       Some {| Client.status := 404; Client.data := Client.DataString "Not found" |} |}.


(** A plain parameter in front of the extended one. *)
Definition plain_parameter : list ascii :=
  Documents.chars "attachment; filename=" ++ [Documents.double_quote]
  ++ Documents.chars "plain.pdf" ++ [Documents.double_quote] ++ Documents.chars "; ".

Definition policy_header : list ascii :=
  Documents.chars "attachment; filename=" ++ [Documents.double_quote]
  ++ Documents.chars "policy.pdf" ++ [Documents.double_quote].

(** A download answered with the header of the scenario. *)
Definition serves_policy (path : string) (params : list (string * string))
  : completion Documents.Failure Documents.BlobResponse :=
  Normal {| Documents.response_headers := Some {[ "content-disposition" := policy_header ]};
            Documents.response_data := Documents.chars "%PDF-1.7" |}.

(** A download answered without any header. *)
Definition serves_bare (path : string) (params : list (string * string))
  : completion Documents.Failure Documents.BlobResponse :=
  Normal {| Documents.response_headers := None;
            Documents.response_data := Documents.chars "PK" |}.

(** A response that arrives without a readable body. *)
Definition answers_nothing (path : string) (params : list (string * string))
  : completion Documents.Failure (option (Documents.Payload.t string)) :=
  Normal None.

(** The user types a search text, which finds 45 documents, pages forward
    twice and pages back; the last request fails. *)
Definition browsing
  : list (Library.Event * completion Documents.Failure (option (Documents.Payload.t string))) :=
  [ (Library.SearchChanged "fire", Normal (Some page_with_items));
    (Library.Next, Normal (Some page_with_items));
    (Library.Next, Normal (Some page_with_items));
    (Library.Previous, Throw Documents.NetworkError) ].

End Samples.

(** * The notification channel: facts *)

Module ToastBusFacts.
Import ToastBus.

Lemma later_refl es : later es es.
Proof. split; [lia | auto]. Qed.

Lemma later_trans es1 es2 es3 : later es1 es2 -> later es2 es3 -> later es1 es3.
Proof.
  intros [L12 H12] [L23 H23]. split; [lia |].
  intros j l Hj H3. apply H12; [assumption |]. apply H23; [lia | assumption].
Qed.

Lemma later_set_add l es : later es (set_add l es).
Proof.
  unfold set_add. destruct (set_has l es); [apply later_refl |].
  split.
  - rewrite length_app. lia.
  - intros j l' Hj. rewrite lookup_app_l by assumption. auto.
Qed.

Lemma later_set_delete l es : later es (set_delete l es).
Proof.
  unfold set_delete. split.
  - rewrite length_map. lia.
  - intros j l' Hj. rewrite list_lookup_fmap.
    destruct (es !! j) as [[l0|]|]; simpl; try discriminate.
    destruct (Nat.eqb l0 l); [discriminate | auto].
Qed.

Section Facts.

Variable body : ToastListener -> list BusCall.

Lemma run_call_later b c : later (listeners b) (listeners (run_call b c)).
Proof. destruct c; simpl; [apply later_set_add | apply later_set_delete]. Qed.

Lemma run_call_logs b c :
  published (run_call b c) = published b /\ received (run_call b c) = received b.
Proof. destruct c; simpl; auto. Qed.

Lemma run_calls_later cs : forall b, later (listeners b) (listeners (fold_left run_call cs b)).
Proof.
  induction cs as [|c cs IH]; intros b; simpl; [apply later_refl |].
  eapply later_trans; [apply run_call_later | apply IH].
Qed.

Lemma run_calls_logs cs : forall b,
  published (fold_left run_call cs b) = published b /\
  received (fold_left run_call cs b) = received b.
Proof.
  induction cs as [|c cs IH]; intros b; simpl; [auto |].
  destruct (IH (run_call b c)) as [-> ->]. apply run_call_logs.
Qed.

Lemma call_listener_later l t b : later (listeners b) (listeners (call_listener body l t b)).
Proof.
  exact (run_calls_later (body l)
           {| listeners := listeners b; published := published b;
              received := received b ++ [(l, t)] |}).
Qed.

Lemma call_listener_logs l t b :
  published (call_listener body l t b) = published b /\
  received (call_listener body l t b) = received b ++ [(l, t)].
Proof.
  exact (run_calls_logs (body l)
           {| listeners := listeners b; published := published b;
              received := received b ++ [(l, t)] |}).
Qed.

(** The loop invariant of [forEach]: when the loop ends, whatever is
    registered at an index the loop had still to visit has been called. *)
Lemma forEach_live fuel : forall index t b b',
  forEach body fuel index t b = Some b' ->
  later (listeners b) (listeners b') /\
  published b' = published b /\
  exists calls,
    received b' = received b ++ calls /\
    Forall (fun c => snd c = t) calls /\
    forall j l, (index <= j)%nat -> listeners b' !! j = Some (Some l) -> In (l, t) calls.
Proof.
  induction fuel as [|fuel IH]; intros index t b b' Hrun; simpl in Hrun; [discriminate |].
  destruct (listeners b !! index) as [[l0|]|] eqn:Hentry.
  - destruct (IH _ _ _ _ Hrun) as (Hlater & Hpub & calls & Hrec & Hall & Hcalled).
    destruct (call_listener_logs l0 t b) as [Hp Hr].
    pose proof (call_listener_later l0 t b) as Hl.
    split; [eapply later_trans; eassumption |].
    split; [congruence |].
    exists ((l0, t) :: calls). split; [|split].
    + rewrite Hrec, Hr, <- app_assoc. reflexivity.
    + constructor; [reflexivity | assumption].
    + intros j l Hj Hfinal.
      destruct (decide (j = index)) as [-> | Hne].
      * left. apply lookup_lt_Some in Hentry as Hlt.
        destruct (later_trans _ _ _ Hl Hlater) as [_ Hback].
        specialize (Hback index l Hlt Hfinal). congruence.
      * right. apply (Hcalled j); [lia | assumption].
  - destruct (IH _ _ _ _ Hrun) as (Hlater & Hpub & calls & Hrec & Hall & Hcalled).
    split; [assumption |]. split; [assumption |].
    exists calls. split; [assumption |]. split; [assumption |].
    intros j l Hj Hfinal.
    destruct (decide (j = index)) as [-> | Hne].
    + apply lookup_lt_Some in Hentry as Hlt.
      destruct Hlater as [_ Hback].
      specialize (Hback index l Hlt Hfinal). congruence.
    + apply (Hcalled j); [lia | assumption].
  - injection Hrun as <-. split; [apply later_refl |]. split; [reflexivity |].
    exists []. split; [rewrite app_nil_r; reflexivity |]. split; [constructor |].
    intros j l Hj Hfinal. apply lookup_ge_None in Hentry.
    apply lookup_lt_Some in Hfinal. lia.
Qed.

(** With listeners that leave the channel alone the loop ends after one
    step per entry and calls the registered listeners in order. *)
Lemma forEach_quiet fuel : forall index t b,
  quiet body ->
  (length (listeners b) - index < fuel)%nat ->
  forEach body fuel index t b =
    Some {| listeners := listeners b;
            published := published b;
            received := received b
                        ++ map (fun l => (l, t)) (registered (drop index (listeners b))) |}.
Proof.
  induction fuel as [|fuel IH]; intros index t b Hq Hfuel; [lia |].
  simpl. destruct (listeners b !! index) as [[l0|]|] eqn:Hentry.
  - rewrite (drop_S _ _ _ Hentry). unfold call_listener. rewrite (Hq l0). simpl.
    rewrite IH; [| assumption | simpl; apply lookup_lt_Some in Hentry; lia].
    simpl. rewrite <- app_assoc. reflexivity.
  - rewrite (drop_S _ _ _ Hentry). simpl.
    rewrite IH; [| assumption | apply lookup_lt_Some in Hentry; lia].
    reflexivity.
  - apply lookup_ge_None in Hentry. rewrite drop_ge by assumption. simpl.
    rewrite app_nil_r. destruct b; reflexivity.
Qed.

Lemma publishToast_quiet fuel t b :
  quiet body ->
  (length (listeners b) < fuel)%nat ->
  publishToast body fuel t b = Some (deliver t b).
Proof.
  intros Hq Hfuel. unfold publishToast.
  rewrite forEach_quiet; [reflexivity | assumption | simpl; lia].
Qed.

Lemma publishToast_published fuel t b b' :
  publishToast body fuel t b = Some b' -> published b' = published b ++ [t].
Proof.
  unfold publishToast. intros H. destruct (forEach_live _ _ _ _ _ H) as (_ & Hp & _). exact Hp.
Qed.

Lemma registered_lookup (es : SetData) l :
  In l (registered es) -> exists j, es !! j = Some (Some l).
Proof.
  unfold registered. rewrite <- list_elem_of_In, list_elem_of_omap.
  intros (e & He & Hid). destruct e as [l'|]; simpl in Hid; [| discriminate].
  injection Hid as ->. apply list_elem_of_lookup in He. exact He.
Qed.

(** C8, as amended.  [publishToast] iterates over the live listener set and
    not over a snapshot of it: when it returns, every listener that is
    registered at that moment, one registered during the call included,
    has been called with the toast.  When no listener changes the set, the
    call returns and has called exactly the listeners registered when it
    began, once each, in registration order. *)
Theorem publishToast_iterates_live_set fuel t b :
  (forall b',
     publishToast body fuel t b = Some b' ->
     published b' = published b ++ [t] /\
     exists calls,
       received b' = received b ++ calls /\
       Forall (fun c => snd c = t) calls /\
       forall l, In l (registered (listeners b')) -> In (l, t) calls)
  /\
  (quiet body ->
   (length (listeners b) < fuel)%nat ->
   publishToast body fuel t b = Some (deliver t b)).
Proof.
  split.
  - intros b' Hrun. split; [eapply publishToast_published; eassumption |].
    unfold publishToast in Hrun.
    destruct (forEach_live _ _ _ _ _ Hrun) as (_ & _ & calls & Hrec & Hall & Hcalled).
    exists calls. split; [exact Hrec |]. split; [exact Hall |].
    intros l Hl. destruct (registered_lookup _ _ Hl) as [j Hj].
    apply (Hcalled j); [lia | exact Hj].
  - apply publishToast_quiet.
Qed.

End Facts.

(** C8, as stated, fails: listener 2 is not registered when [publishToast]
    begins, listener 1 registers it while it handles the toast, and
    listener 2 receives that same toast. *)
Lemma publishToast_calls_listener_registered_meanwhile :
  registered (listeners (Samples.bus_with [1%nat])) = [1%nat] /\
  received <$> publishToast Samples.registering_body 3 Samples.hello (Samples.bus_with [1%nat])
  = Some [(1%nat, Samples.hello); (2%nat, Samples.hello)].
Proof. split; reflexivity. Qed.

Lemma publishToast_iterates_live_set_witness :
  (exists b',
     publishToast Samples.registering_body 3 Samples.hello (Samples.bus_with [1%nat]) = Some b' /\
     In (2%nat, Samples.hello) (received b'))
  /\
  received <$> publishToast Samples.quiet_body 3 Samples.hello (Samples.bus_with [1%nat; 2%nat])
  = Some [(1%nat, Samples.hello); (2%nat, Samples.hello)].
Proof.
  split.
  - destruct (publishToast_iterates_live_set Samples.registering_body 3 Samples.hello
                (Samples.bus_with [1%nat])) as [Hlive _].
    eexists. split; [reflexivity |].
    destruct (Hlive _ eq_refl) as (_ & calls & Hrec & _ & Hcalled).
    rewrite Hrec. apply in_or_app. right. apply Hcalled. simpl. auto.
  - destruct (publishToast_iterates_live_set Samples.quiet_body 3 Samples.hello
                (Samples.bus_with [1%nat; 2%nat])) as [_ Hquiet].
    rewrite Hquiet; [reflexivity | intros l; reflexivity | simpl; lia].
Defined.

End ToastBusFacts.

(** * The client's interceptors: facts *)

Module ClientFacts.
Import ToastBus Client.

Lemma set_now_same w : set_now (now w) w = w.
Proof. destruct w; reflexivity. Qed.

Section Facts.

Variable trim : string -> string.
Variable toUpperCase : string -> string.
Variable body : ToastListener -> list BusCall.

(** C1.  On a failure answered with 401 the handler publishes the warning
    toast, whose text is the one given here, and, once the listeners have
    returned, removes the three credential keys, each once and in this
    order, assigns the login location only when the current path does not
    start with it, and rejects with the failure it was given.  With
    listeners that leave the channel alone the call always returns, and the
    toast has reached each of them. *)
Theorem unauthorized_invalidates_session fuel failure w :
  response_status failure = Some 401%Z ->
  let toast :=
    {| message := "Session expired. Please log in again.";
       type := Some warning;
       durationMs := None |} in
  let after b' :=
    {| localStorage :=
         delete "user" (delete "csrf_token" (delete "access_token" (localStorage w)));
       pathname := pathname w;
       effects :=
         effects w
         ++ [RemoveItem "access_token"; RemoveItem "csrf_token"; RemoveItem "user"]
         ++ (if String.prefix "/login" (pathname w) then []
             else [AssignHref "/login"]);
       now := now w;
       lastToastKey := lastToastKey w;
       lastToastAt := lastToastAt w;
       bus := b' |} in
  (forall b',
     publishToast body fuel toast (bus w) = Some b' ->
     published b' = published (bus w) ++ [toast] /\
     response_onRejected trim body fuel failure w = Some (Throw failure, after b'))
  /\
  (quiet body ->
   (length (listeners (bus w)) < fuel)%nat ->
   response_onRejected trim body fuel failure w =
     Some (Throw failure, after (deliver toast (bus w)))).
Proof.
  intros H401 toast after.
  assert (Hrun : forall b',
            publishToast body fuel toast (bus w) = Some b' ->
            response_onRejected trim body fuel failure w = Some (Throw failure, after b')).
  { intros b' Hpub. unfold response_onRejected.
    rewrite bool_decide_eq_true_2 by assumption.
    change session_expired_toast with toast. rewrite Hpub.
    unfold after, removeItem, assign_href, set_bus. simpl.
    destruct (String.prefix "/login" (pathname w)); simpl;
      repeat rewrite <- app_assoc; reflexivity. }
  split.
  - intros b' Hpub. split; [| apply Hrun; exact Hpub].
    eapply ToastBusFacts.publishToast_published. eassumption.
  - intros Hq Hfuel. apply Hrun. apply ToastBusFacts.publishToast_quiet; assumption.
Qed.

Lemma response_onRejected_generic fuel failure w :
  generic failure ->
  response_onRejected trim body fuel failure w =
    match publishErrorToast trim body fuel failure w with
    | Some w' => Some (Throw failure, w')
    | None => None
    end.
Proof.
  intros [H401 Hcode]. unfold response_onRejected.
  rewrite bool_decide_eq_false_2 by assumption.
  rewrite bool_decide_eq_false_2 by assumption.
  reflexivity.
Qed.

Lemma publishErrorToast_quiet fuel failure w :
  quiet body ->
  (length (listeners (bus w)) < fuel)%nat ->
  publishErrorToast trim body fuel failure w =
    Some (if suppressed (toast_key trim failure) w then w
          else set_bus (deliver (error_toast trim failure) (bus w))
                 (set_last (toast_key trim failure) (now w) w)).
Proof.
  intros Hq Hfuel. unfold publishErrorToast.
  destruct (suppressed (toast_key trim failure) w); [reflexivity |].
  simpl. rewrite ToastBusFacts.publishToast_quiet by assumption. reflexivity.
Qed.

(** C3.  A cancelled request is reported by a failure that carries the
    cancellation marker and no response: it is made when the caller
    aborts, not from an answer of the server.  Such a failure changes
    nothing, the channel included, whatever the listeners are, and is
    rejected as it came. *)
Theorem canceled_failure_is_silent fuel failure w :
  code failure = Some "ERR_CANCELED" ->
  response failure = None ->
  response_onRejected trim body fuel failure w = Some (Throw failure, w).
Proof.
  intros Hcode Hnone. unfold response_onRejected.
  rewrite bool_decide_eq_false_2
    by (unfold response_status; rewrite Hnone; discriminate).
  rewrite bool_decide_eq_true_2 by assumption.
  reflexivity.
Qed.

Lemma suppressed_spec key w :
  suppressed key w = true <->
  key = lastToastKey w /\ (now w - lastToastAt w < ERROR_TOAST_DEDUP_WINDOW_MS)%Z.
Proof.
  unfold suppressed. rewrite andb_true_iff, String.eqb_eq, Z.ltb_lt. reflexivity.
Qed.

(** The key of a failure is never the empty string, so on a fresh page,
    where [lastToastKey] is still empty, nothing is suppressed. *)
Lemma fresh_page_suppresses_nothing failure w :
  lastToastKey w = initial_lastToastKey ->
  suppressed (toast_key trim failure) w = false.
Proof.
  intros Hfresh. unfold suppressed. rewrite Hfresh. unfold toast_key.
  destruct (match response_status failure with
            | Some s => pretty s
            | None => "network"
            end); reflexivity.
Qed.

Lemma fire_quiet fuel t failure w :
  quiet body ->
  (length (listeners (bus w)) < fuel)%nat ->
  generic failure ->
  response_onRejected trim body fuel failure (set_now t w) =
    Some (Throw failure,
          if suppressed (toast_key trim failure) (set_now t w) then set_now t w
          else set_bus (deliver (error_toast trim failure) (bus w))
                 (set_last (toast_key trim failure) t (set_now t w))).
Proof.
  intros Hq Hfuel Hgen.
  rewrite response_onRejected_generic by assumption.
  rewrite publishErrorToast_quiet by assumption. reflexivity.
Qed.

(** Once a toast has been delivered, the fires with its key that come less
    than the window after it only move the clock. *)
Lemma fire_all_suppressed fuel : forall rest w,
  quiet body ->
  (length (listeners (bus w)) < fuel)%nat ->
  (forall t failure, In (t, failure) rest ->
     generic failure /\
     toast_key trim failure = lastToastKey w /\
     (t - lastToastAt w < ERROR_TOAST_DEDUP_WINDOW_MS)%Z) ->
  fire_all trim body fuel rest w = Some (set_now (final_time rest (now w)) w).
Proof.
  induction rest as [|[t failure] rest IH]; intros w Hq Hfuel Hall.
  - simpl. rewrite set_now_same. reflexivity.
  - destruct (Hall t failure (or_introl eq_refl)) as (Hgen & Hkey & Hwin).
    simpl. rewrite fire_quiet by assumption.
    assert (Hs : suppressed (toast_key trim failure) (set_now t w) = true).
    { apply suppressed_spec. simpl. auto. }
    rewrite Hs. rewrite IH; [reflexivity | assumption | exact Hfuel |].
    intros t' failure' Hin. apply (Hall t' failure'). right. exact Hin.
Qed.

(** Fires that come more than the window after one another are all
    delivered. *)
Lemma fire_all_spaced fuel : forall fires w,
  quiet body ->
  (length (listeners (bus w)) < fuel)%nat ->
  (forall t failure, In (t, failure) fires -> generic failure) ->
  spaced (lastToastAt w) fires ->
  exists w',
    fire_all trim body fuel fires w = Some w' /\
    published (bus w') =
      published (bus w) ++ map (fun fire => error_toast trim (snd fire)) fires.
Proof.
  induction fires as [|[t failure] rest IH]; intros w Hq Hfuel Hgen Hsp.
  - exists w. simpl. rewrite app_nil_r. auto.
  - destruct Hsp as [Hgap Hsp]. simpl.
    rewrite fire_quiet; [| assumption | assumption | apply (Hgen t); left; reflexivity].
    assert (Hs : suppressed (toast_key trim failure) (set_now t w) = false).
    { unfold suppressed. simpl. apply andb_false_iff. right. apply Z.ltb_ge. lia. }
    rewrite Hs.
    destruct (IH (set_bus (deliver (error_toast trim failure) (bus w))
                    (set_last (toast_key trim failure) t (set_now t w))))
      as (w' & Hrun & Hpub).
    + assumption.
    + simpl. exact Hfuel.
    + intros t' failure' Hin. apply (Hgen t'). right. exact Hin.
    + simpl. exact Hsp.
    + exists w'. split; [exact Hrun |]. rewrite Hpub. simpl.
      rewrite <- app_assoc. reflexivity.
Qed.

(** C2, as amended.  (1) A burst of generic failures with one key, all less
    than 3000 ms after the first, which is delivered: the first toast alone
    reaches the listeners, and the remembered key and time are those of the
    first.  (2) When every fire comes more than 3000 ms after the one
    before it, every toast is published.  (3) One call either is suppressed
    and changes nothing, or remembers its key and time and publishes. *)
Theorem error_toast_dedup fuel :
  (forall t0 first rest w,
     quiet body ->
     (length (listeners (bus w)) < fuel)%nat ->
     generic first ->
     suppressed (toast_key trim first) (set_now t0 w) = false ->
     (forall t failure, In (t, failure) rest ->
        generic failure /\
        toast_key trim failure = toast_key trim first /\
        (t - t0 < ERROR_TOAST_DEDUP_WINDOW_MS)%Z) ->
     fire_all trim body fuel ((t0, first) :: rest) w =
       Some (set_now (final_time rest t0)
               (set_bus (deliver (error_toast trim first) (bus w))
                  (set_last (toast_key trim first) t0 w))))
  /\
  (forall t0 first rest w,
     quiet body ->
     (length (listeners (bus w)) < fuel)%nat ->
     (forall t failure, In (t, failure) ((t0, first) :: rest) -> generic failure) ->
     suppressed (toast_key trim first) (set_now t0 w) = false ->
     spaced t0 rest ->
     exists w',
       fire_all trim body fuel ((t0, first) :: rest) w = Some w' /\
       published (bus w') =
         published (bus w)
         ++ map (fun fire => error_toast trim (snd fire)) ((t0, first) :: rest))
  /\
  (forall failure w w',
     publishErrorToast trim body fuel failure w = Some w' ->
     if suppressed (toast_key trim failure) w then w' = w
     else lastToastKey w' = toast_key trim failure /\
          lastToastAt w' = now w /\
          published (bus w') = published (bus w) ++ [error_toast trim failure]).
Proof.
  split; [| split].
  - intros t0 first rest w Hq Hfuel Hgen Hfirst Hrest.
    simpl. rewrite fire_quiet by assumption. rewrite Hfirst.
    rewrite fire_all_suppressed; [reflexivity | assumption | exact Hfuel |].
    simpl. exact Hrest.
  - intros t0 first rest w Hq Hfuel Hgen Hfirst Hsp.
    simpl. rewrite fire_quiet;
      [| assumption | assumption | apply (Hgen t0); left; reflexivity].
    rewrite Hfirst.
    destruct (fire_all_spaced fuel rest
                (set_bus (deliver (error_toast trim first) (bus w))
                   (set_last (toast_key trim first) t0 (set_now t0 w))))
      as (w' & Hrun & Hpub).
    + assumption.
    + simpl. exact Hfuel.
    + intros t failure Hin. apply (Hgen t). right. exact Hin.
    + simpl. exact Hsp.
    + exists w'. split; [exact Hrun |]. rewrite Hpub. simpl.
      rewrite <- app_assoc. reflexivity.
  - intros failure w w'. unfold publishErrorToast.
    destruct (suppressed (toast_key trim failure) w).
    + intros [= <-]. reflexivity.
    + simpl.
      destruct (publishToast body fuel (error_toast trim failure) (bus w)) as [b|] eqn:Hpub;
        [| discriminate].
      intros [= <-]. simpl.
      split; [reflexivity |]. split; [reflexivity |].
      eapply ToastBusFacts.publishToast_published. eassumption.
Qed.

(** C7.  The request handler changes nothing but two headers.
    [Authorization] is set, to [Bearer] and the token, exactly when a
    non-empty access token is stored; [x-csrf-token] is set, to the token,
    exactly when the upper-cased method ([GET] when there is none) is one of
    POST, PUT, PATCH and DELETE and a non-empty CSRF token is stored.  A
    header that is not set keeps the value the request came with. *)
Theorem request_onFulfilled_attaches_credentials config w :
  let config' := request_onFulfilled toUpperCase config w in
  (method config' = method config /\
   url config' = url config /\
   params config' = params config /\
   request_data config' = request_data config)
  /\
  headers config' !! "Authorization" =
    match getItem_truthy "access_token" w with
    | Some token => Some ("Bearer " +:+ token)
    | None => headers config !! "Authorization"
    end
  /\
  headers config' !! "x-csrf-token" =
    (if bool_decide (effective_method toUpperCase config ∈ MUTATING_METHODS)
     then match getItem_truthy "csrf_token" w with
          | Some token => Some token
          | None => headers config !! "x-csrf-token"
          end
     else headers config !! "x-csrf-token")
  /\
  (forall name, name <> "Authorization" -> name <> "x-csrf-token" ->
     headers config' !! name = headers config !! name)
  /\
  (headers config !! "Authorization" = None ->
     (is_Some (headers config' !! "Authorization")
      <-> is_Some (getItem_truthy "access_token" w)))
  /\
  (headers config !! "x-csrf-token" = None ->
     (is_Some (headers config' !! "x-csrf-token")
      <-> effective_method toUpperCase config ∈ MUTATING_METHODS
          /\ is_Some (getItem_truthy "csrf_token" w))).
Proof.
  intros config'.
  assert (Hauth :
    headers config' !! "Authorization" =
      match getItem_truthy "access_token" w with
      | Some token => Some ("Bearer " +:+ token)
      | None => headers config !! "Authorization"
      end).
  { subst config'. unfold request_onFulfilled, effective_method, set_header.
    destruct (getItem_truthy "access_token" w);
      destruct (getItem_truthy "csrf_token" w);
      simpl; case_bool_decide; simpl;
      repeat (rewrite lookup_insert_ne by discriminate);
      try (rewrite lookup_insert_eq); reflexivity. }
  assert (Hcsrf :
    headers config' !! "x-csrf-token" =
      (if bool_decide (effective_method toUpperCase config ∈ MUTATING_METHODS)
       then match getItem_truthy "csrf_token" w with
            | Some token => Some token
            | None => headers config !! "x-csrf-token"
            end
       else headers config !! "x-csrf-token")).
  { clear Hauth.
    subst config'. unfold request_onFulfilled, effective_method, set_header.
    destruct (getItem_truthy "access_token" w);
      destruct (getItem_truthy "csrf_token" w);
      simpl; case_bool_decide; simpl;
      try (rewrite lookup_insert_eq);
      repeat (rewrite lookup_insert_ne by discriminate); reflexivity. }
  split; [| split; [exact Hauth | split; [exact Hcsrf | split; [| split]]]].
  - clear Hauth Hcsrf.
    subst config'. unfold request_onFulfilled, effective_method, set_header.
    destruct (getItem_truthy "access_token" w);
      destruct (getItem_truthy "csrf_token" w);
      simpl; case_bool_decide; simpl; auto.
  - intros name H1 H2. clear Hauth Hcsrf.
    subst config'. unfold request_onFulfilled, effective_method, set_header.
    destruct (getItem_truthy "access_token" w);
      destruct (getItem_truthy "csrf_token" w);
      simpl; case_bool_decide; simpl;
      repeat (rewrite lookup_insert_ne by congruence); reflexivity.
  - intros Hnone. rewrite Hauth, Hnone.
    destruct (getItem_truthy "access_token" w); split; intros [x Hx];
      try discriminate; eauto.
  - intros Hnone. rewrite Hcsrf, Hnone.
    case_bool_decide as Hm;
      destruct (getItem_truthy "csrf_token" w); split;
      try (intros [x Hx]; discriminate);
      try (intros [_ [x Hx]]; discriminate);
      try (intros [Hin _]; contradiction);
      eauto.
Qed.

End Facts.

Lemma unauthorized_invalidates_session_witness :
  response_status Samples.unauthorized = Some 401%Z /\
  (fun r => (effects (snd r), received (bus (snd r)))) <$>
    response_onRejected ascii_trim Samples.quiet_body 2 Samples.unauthorized
      (Samples.world_at "/library")
  = Some ([RemoveItem "access_token"; RemoveItem "csrf_token"; RemoveItem "user";
           AssignHref "/login"],
          [(7%nat,
            {| message := "Session expired. Please log in again.";
               type := Some warning;
               durationMs := None |})]) /\
  (fun r => (effects (snd r), localStorage (snd r))) <$>
    response_onRejected ascii_trim Samples.quiet_body 2 Samples.unauthorized
      (Samples.world_at "/login")
  = Some ([RemoveItem "access_token"; RemoveItem "csrf_token"; RemoveItem "user"],
          {[ "theme" := "dark" ]}).
Proof.
  split; [reflexivity |]. split.
  - destruct (unauthorized_invalidates_session ascii_trim Samples.quiet_body 2
                Samples.unauthorized (Samples.world_at "/library") eq_refl)
      as [_ Hquiet].
    rewrite Hquiet; [reflexivity | intros l; reflexivity | simpl; lia].
  - destruct (unauthorized_invalidates_session ascii_trim Samples.quiet_body 2
                Samples.unauthorized (Samples.world_at "/login") eq_refl)
      as [Hrun _].
    destruct (Hrun _ eq_refl) as [_ ->]. vm_compute. reflexivity.
Defined.

(** C2, as stated, fails: three fires of one failure, each 2000 ms after
    the one before it, and two toasts reach the listener.  The third fire
    is 4000 ms after the first, the last one delivered. *)
Lemma short_gaps_deliver_twice :
  (12000 - 10000 < ERROR_TOAST_DEDUP_WINDOW_MS)%Z /\
  (14000 - 12000 < ERROR_TOAST_DEDUP_WINDOW_MS)%Z /\
  (fun w => received (bus w)) <$>
    fire_all ascii_trim Samples.quiet_body 2
      [(10000%Z, Samples.server_error); (12000%Z, Samples.server_error);
       (14000%Z, Samples.server_error)]
      (Samples.world_at "/library")
  = Some [(7%nat, error_toast ascii_trim Samples.server_error);
          (7%nat, error_toast ascii_trim Samples.server_error)].
Proof. split; [reflexivity |]. split; [reflexivity |]. vm_compute. reflexivity. Qed.

Lemma generic_server_error : generic Samples.server_error.
Proof. split; discriminate. Qed.

Lemma error_toast_dedup_witness :
  (fun w => (received (bus w), lastToastAt w)) <$>
    fire_all ascii_trim Samples.quiet_body 2
      [(10000%Z, Samples.server_error); (12000%Z, Samples.server_error);
       (12999%Z, Samples.server_error)]
      (Samples.world_at "/library")
  = Some ([(7%nat, error_toast ascii_trim Samples.server_error)], 10000%Z)
  /\
  exists w',
    fire_all ascii_trim Samples.quiet_body 2
      [(10000%Z, Samples.server_error); (13001%Z, Samples.server_error)]
      (Samples.world_at "/library") = Some w' /\
    published (bus w') =
      [error_toast ascii_trim Samples.server_error;
       error_toast ascii_trim Samples.server_error].
Proof.
  destruct (error_toast_dedup ascii_trim Samples.quiet_body 2) as (Hburst & Hspaced & _).
  split.
  - rewrite Hburst.
    + reflexivity.
    + intros l. reflexivity.
    + simpl. lia.
    + exact generic_server_error.
    + reflexivity.
    + intros t failure [H | [H | []]]; injection H as <- <-;
        (split; [exact generic_server_error | split; [reflexivity | reflexivity]]).
  - destruct (Hspaced 10000%Z Samples.server_error [(13001%Z, Samples.server_error)]
                (Samples.world_at "/library")) as (w' & Hrun & Hpub).
    + intros l. reflexivity.
    + simpl. lia.
    + intros t failure [H | [H | []]]; injection H as <- <-; exact generic_server_error.
    + reflexivity.
    + simpl. split; [reflexivity | exact I].
    + exists w'. split; [exact Hrun | exact Hpub].
Defined.

Lemma canceled_failure_is_silent_witness :
  response_onRejected ascii_trim Samples.quiet_body 0 Samples.aborted
    (Samples.world_at "/library")
  = Some (Throw Samples.aborted, Samples.world_at "/library").
Proof.
  apply canceled_failure_is_silent; reflexivity.
Defined.

Lemma request_onFulfilled_attaches_credentials_witness :
  headers (request_onFulfilled ascii_toUpperCase Samples.post_request
             (Samples.world_at "/library")) !! "x-csrf-token" = Some "c5rf"
  /\
  headers (request_onFulfilled ascii_toUpperCase Samples.get_request
             (Samples.world_at "/library")) !! "Authorization"
  = Some "Bearer eyJhbGciOi"
  /\
  headers (request_onFulfilled ascii_toUpperCase Samples.get_request
             (Samples.world_at "/library")) !! "x-csrf-token" = None.
Proof.
  destruct (request_onFulfilled_attaches_credentials ascii_toUpperCase
              Samples.post_request (Samples.world_at "/library"))
    as (_ & _ & Hpost & _).
  destruct (request_onFulfilled_attaches_credentials ascii_toUpperCase
              Samples.get_request (Samples.world_at "/library"))
    as (_ & Hauth & Hget & _).
  split; [rewrite Hpost; reflexivity |].
  split; [rewrite Hauth; reflexivity | rewrite Hget; reflexivity].
Defined.

End ClientFacts.

(** * Division in doubles *)

Module NumberFacts.
Import Documents.
Local Open Scope Z_scope.

Lemma pow2_pos x : 0 < pow2 x.
Proof. unfold pow2. apply Z.pow_pos_nonneg; lia. Qed.

Lemma pow2_low x : x <= 0 -> pow2 x = 1.
Proof. intros H. unfold pow2. rewrite Z.max_l by lia. reflexivity. Qed.

Lemma pow2_high x : 0 <= x -> pow2 x = 2 ^ x.
Proof. intros H. unfold pow2. rewrite Z.max_r by lia. reflexivity. Qed.

(** [round_half_even n d] is the quotient or the next integer: the next
    one when the remainder is above half of [d], the quotient when there
    is no remainder. *)
Lemma round_half_even_spec n d :
  0 < d ->
  n / d <= round_half_even n d <= n / d + 1 /\
  (d < 2 * (n mod d) -> round_half_even n d = n / d + 1) /\
  (n mod d = 0 -> round_half_even n d = n / d).
Proof.
  intros Hd. unfold round_half_even. pose proof (Z.mod_pos_bound n d Hd) as Hr.
  destruct (Z.ltb_spec (2 * (n mod d)) d) as [Hlow | Hlow].
  - repeat split; lia.
  - destruct (Z.ltb_spec d (2 * (n mod d))) as [Hhigh | Hhigh].
    + repeat split; lia.
    + destruct (Z.even (n / d)); repeat split; lia.
Qed.

(** Scaling both sides of [2 ^ x <= a / b] by [2 ^ c]. *)
Lemma scale_le a b x c :
  0 <= c ->
  b * pow2 x <= a * pow2 (- x) ->
  2 ^ c * (b * pow2 (x - c)) <= a * pow2 (c - x).
Proof.
  intros Hc H.
  assert (Hpc : 0 < 2 ^ c) by (apply Z.pow_pos_nonneg; lia).
  destruct (Z.le_gt_cases x 0) as [Hx | Hx].
  - rewrite (pow2_low x) in H by lia. rewrite (pow2_high (- x)) in H by lia.
    rewrite (pow2_low (x - c)) by lia. rewrite (pow2_high (c - x)) by lia.
    replace (c - x) with (c + - x) by lia. rewrite Z.pow_add_r by lia. nia.
  - rewrite (pow2_high x) in H by lia. rewrite (pow2_low (- x)) in H by lia.
    destruct (Z.le_gt_cases x c) as [Hxc | Hxc].
    + rewrite (pow2_low (x - c)) by lia. rewrite (pow2_high (c - x)) by lia.
      replace (2 ^ c) with (2 ^ x * 2 ^ (c - x))
        by (rewrite <- Z.pow_add_r by lia; f_equal; lia).
      assert (0 < 2 ^ (c - x)) by (apply Z.pow_pos_nonneg; lia). nia.
    + rewrite (pow2_high (x - c)) by lia. rewrite (pow2_low (c - x)) by lia.
      replace (2 ^ x) with (2 ^ c * 2 ^ (x - c)) in H
        by (rewrite <- Z.pow_add_r by lia; f_equal; lia).
      nia.
Qed.

Lemma scale_lt a b x c :
  0 <= c ->
  a * pow2 (- x) < b * pow2 x ->
  a * pow2 (c - x) < 2 ^ c * (b * pow2 (x - c)).
Proof.
  intros Hc H.
  assert (Hpc : 0 < 2 ^ c) by (apply Z.pow_pos_nonneg; lia).
  destruct (Z.le_gt_cases x 0) as [Hx | Hx].
  - rewrite (pow2_low x) in H by lia. rewrite (pow2_high (- x)) in H by lia.
    rewrite (pow2_low (x - c)) by lia. rewrite (pow2_high (c - x)) by lia.
    replace (c - x) with (c + - x) by lia. rewrite Z.pow_add_r by lia. nia.
  - rewrite (pow2_high x) in H by lia. rewrite (pow2_low (- x)) in H by lia.
    destruct (Z.le_gt_cases x c) as [Hxc | Hxc].
    + rewrite (pow2_low (x - c)) by lia. rewrite (pow2_high (c - x)) by lia.
      replace (2 ^ c) with (2 ^ x * 2 ^ (c - x))
        by (rewrite <- Z.pow_add_r by lia; f_equal; lia).
      assert (0 < 2 ^ (c - x)) by (apply Z.pow_pos_nonneg; lia). nia.
    + rewrite (pow2_high (x - c)) by lia. rewrite (pow2_low (c - x)) by lia.
      replace (2 ^ x) with (2 ^ c * 2 ^ (x - c)) in H
        by (rewrite <- Z.pow_add_r by lia; f_equal; lia).
      nia.
Qed.

(** [binade a b] is the exponent of the power of two at or below
    [a / b]: [2 ^ L <= a / b < 2 ^ (L + 1)]. *)
Lemma binade_spec a b :
  0 < a -> 0 < b ->
  b * pow2 (binade a b) <= a * pow2 (- binade a b) /\
  a * pow2 (- (binade a b + 1)) < b * pow2 (binade a b + 1).
Proof.
  intros Ha Hb.
  destruct (Z.log2_spec a Ha) as [Ha1 Ha2]. destruct (Z.log2_spec b Hb) as [Hb1 Hb2].
  pose proof (Z.log2_nonneg a) as Hla. pose proof (Z.log2_nonneg b) as Hlb.
  unfold binade. set (la := Z.log2 a) in *. set (lb := Z.log2 b) in *.
  rewrite <- Z.add_1_r in Ha2, Hb2.
  assert (Hpa : 0 < 2 ^ la) by (apply Z.pow_pos_nonneg; lia).
  assert (Hpb : 0 < 2 ^ lb) by (apply Z.pow_pos_nonneg; lia).
  rewrite Z.pow_add_r in Ha2, Hb2 by lia. change (2 ^ 1) with 2 in Ha2, Hb2.
  destruct (Z.leb_spec (b * pow2 (la - lb)) (a * pow2 (- (la - lb)))) as [Htest | Htest].
  - split; [exact Htest |].
    (* a / b < 2 ^ (k + 1) *)
    destruct (Z.le_gt_cases 0 (la - lb + 1)) as [Hk | Hk].
    + rewrite (pow2_high (la - lb + 1)) by lia. rewrite (pow2_low (- (la - lb + 1))) by lia.
      replace (la - lb + 1) with (la + 1 - lb) by lia.
      assert (Hsplit : 2 ^ (la + 1) = 2 ^ lb * 2 ^ (la + 1 - lb))
        by (rewrite <- Z.pow_add_r by lia; f_equal; lia).
      rewrite Z.pow_add_r in Hsplit by lia. change (2 ^ 1) with 2 in Hsplit.
      assert (0 < 2 ^ (la + 1 - lb)) by (apply Z.pow_pos_nonneg; lia). nia.
    + rewrite (pow2_low (la - lb + 1)) by lia. rewrite (pow2_high (- (la - lb + 1))) by lia.
      assert (Hsplit : 2 ^ lb = 2 ^ (la + 1) * 2 ^ (- (la - lb + 1)))
        by (rewrite <- Z.pow_add_r by lia; f_equal; lia).
      rewrite Z.pow_add_r in Hsplit by lia. change (2 ^ 1) with 2 in Hsplit.
      assert (0 < 2 ^ (- (la - lb + 1))) by (apply Z.pow_pos_nonneg; lia). nia.
  - replace (la - lb - 1 + 1) with (la - lb) by lia. split; [| exact Htest].
    (* 2 ^ (k - 1) <= a / b *)
    destruct (Z.le_gt_cases 0 (la - lb - 1)) as [Hk | Hk].
    + rewrite (pow2_high (la - lb - 1)) by lia. rewrite (pow2_low (- (la - lb - 1))) by lia.
      assert (Hsplit : 2 ^ la = 2 ^ lb * 2 * 2 ^ (la - lb - 1)).
      { replace (2 ^ lb * 2) with (2 ^ (lb + 1))
          by (rewrite Z.pow_add_r by lia; reflexivity).
        rewrite <- Z.pow_add_r by lia. f_equal. lia. }
      assert (0 < 2 ^ (la - lb - 1)) by (apply Z.pow_pos_nonneg; lia). nia.
    + rewrite (pow2_low (la - lb - 1)) by lia. rewrite (pow2_high (- (la - lb - 1))) by lia.
      assert (Hsplit : 2 ^ lb * 2 = 2 ^ la * 2 ^ (- (la - lb - 1))).
      { replace (2 ^ lb * 2) with (2 ^ (lb + 1))
          by (rewrite Z.pow_add_r by lia; reflexivity).
        rewrite <- Z.pow_add_r by lia. f_equal. lia. }
      assert (0 < 2 ^ (- (la - lb - 1))) by (apply Z.pow_pos_nonneg; lia). nia.
Qed.


(** The mantissa of a quotient has 53 bits: [divide] gives a double. *)
Lemma divide_mantissa a b :
  0 < a -> 0 < b ->
  2 ^ 52 <= fst (divide a b) <= 2 ^ 53 /\
  2 ^ 52 * (b * pow2 (snd (divide a b))) <= a * pow2 (- snd (divide a b)).
Proof.
  intros Ha Hb. destruct (binade_spec a b Ha Hb) as [Hlow Hhigh].
  unfold divide. cbn [fst snd]. set (L := binade a b) in *.
  apply (scale_le a b L 52) in Hlow; [| lia].
  apply (scale_lt a b (L + 1) 53) in Hhigh; [| lia].
  replace (53 - (L + 1)) with (52 - L) in Hhigh by lia.
  replace (L + 1 - 53) with (L - 52) in Hhigh by lia.
  replace (- (L - 52)) with (52 - L) by lia.
  split; [| exact Hlow].
  set (n := a * pow2 (52 - L)) in *. set (d := b * pow2 (L - 52)) in *.
  assert (Hd : 0 < d) by (pose proof (pow2_pos (L - 52)); unfold d; nia).
  destruct (round_half_even_spec n d Hd) as [Hround _].
  assert (2 ^ 52 <= n / d) by (apply Z.div_le_lower_bound; lia).
  assert (n / d < 2 ^ 53) by (apply Z.div_lt_upper_bound; lia).
  lia.
Qed.

(** Up to [2 ^ 53] the division in doubles does not disturb the ceiling:
    [ceil_div a b] is the least [p] with [a <= b * p]. *)
Lemma ceil_div_exact a b :
  0 < a < 2 ^ 53 -> 0 < b ->
  b * (ceil_div a b - 1) < a <= b * ceil_div a b.
Proof.
  intros [Ha Hsafe] Hb. unfold ceil_div.
  destruct (Z.eqb_spec a 0); [lia |]. destruct (Z.eqb_spec b 0); [lia |].
  cbn [orb]. destruct (Z.ltb_spec 0 a); [| lia]. destruct (Z.ltb_spec 0 b); [| lia].
  cbn [Bool.eqb]. rewrite !Z.abs_eq by lia.
  destruct (divide_mantissa a b Ha Hb) as [_ Hlow].
  unfold Math_ceil, divide in *. cbn [fst snd] in *.
  assert (He : binade a b - 52 <= 0).
  { unfold binade. pose proof (Z.log2_nonneg b).
    assert (Z.log2 a < 53) by (apply Z.log2_lt_pow2; lia).
    destruct (_ <=? _); lia. }
  set (e := binade a b - 52) in *.
  rewrite (pow2_low e) in * by exact He. rewrite !Z.mul_1_r in *.
  set (P := pow2 (- e)) in *.
  assert (HP : 0 < P) by apply pow2_pos.
  destruct (round_half_even_spec (a * P) b Hb) as (Hm & Hup & Hexact).
  set (m := round_half_even (a * P) b) in *.
  pose proof (Z.div_mod (a * P) b ltac:(lia)) as Hdiv.
  pose proof (Z.mod_pos_bound (a * P) b Hb) as Hr.
  set (f := a * P / b) in *. set (r := (a * P) mod b) in *.
  pose proof (Z.mul_div_le (- m) P HP) as Hc1.
  pose proof (Z.mul_succ_div_gt (- m) P HP) as Hc2.
  set (C := - (- m / P)) in *.
  assert (HC : P * (C - 1) < m <= P * C) by (unfold C; lia).
  clearbody C m f r P. clear Hc1 Hc2.
  split.
  - (* the ceiling is not too high *)
    assert (Hle : P * (C - 1) <= f) by lia.
    assert (b * (P * (C - 1)) <= b * f) by nia.
    destruct (Z.lt_ge_cases (b * (C - 1)) a) as [Hok | Hbad]; [exact Hok | exfalso].
    assert (Heq : a * P = b * (P * (C - 1))) by nia.
    assert (r = 0) by nia. assert (f = P * (C - 1)) by nia.
    rewrite (Hexact ltac:(assumption)) in HC. lia.
  - (* the ceiling is not too low *)
    destruct (Z.le_gt_cases a (b * C)) as [Hok | Hbad]; [exact Hok | exfalso].
    assert (b * C + 1 <= a) by lia.
    assert (b * m + P <= a * P) by nia.
    assert (P <= r) by nia.
    assert (b < 2 * P) by nia.
    rewrite (Hup ltac:(lia)) in *. nia.
Qed.

Lemma ceil_div_of_count a b : 0 <= a -> 0 < b -> 0 <= ceil_div a b.
Proof.
  intros Ha Hb. unfold ceil_div.
  destruct (Z.eqb_spec a 0); [cbn; lia |]. destruct (Z.eqb_spec b 0); [lia |].
  cbn [orb]. destruct (Z.ltb_spec 0 a); [| lia]. destruct (Z.ltb_spec 0 b); [| lia].
  cbn [Bool.eqb]. rewrite !Z.abs_eq by lia.
  destruct (divide_mantissa a b ltac:(lia) Hb) as [[Hm _] _].
  unfold Math_ceil. set (q := divide a b) in *.
  pose proof (pow2_pos (snd q)). pose proof (pow2_pos (- snd q)).
  assert (- (fst q * pow2 (snd q)) / pow2 (- snd q) <= 0).
  { apply Z.div_le_upper_bound; [assumption |]. nia. }
  lia.
Qed.

(** Above [2 ^ 53] the quotient is rounded before the ceiling is taken:
    seven and a bit is seven. *)
Example ceil_div_rounds : ceil_div (7 * 2 ^ 53 + 16) (2 ^ 53 + 2) = 7.
Proof. vm_compute. reflexivity. Qed.

End NumberFacts.

(** * The documents API: facts *)

Module DocumentsFacts.
Import Documents.

(** ** [extractFilename] *)

Ltac each_byte c := destruct c as [[] [] [] [] [] [] [] []].

Lemma span_not_encode_char c s :
  span_not semicolon (encode_char c ++ s) = encode_char c ++ span_not semicolon s.
Proof. each_byte c; reflexivity. Qed.

Lemma parse_octet_escape c :
  parse_octet (hex_digit (nat_of_ascii c / 16)) (hex_digit (nat_of_ascii c mod 16)) = Some c.
Proof. each_byte c; reflexivity. Qed.

Lemma unescaped_is_ascii c : uriUnescaped c = true -> leading_ones c = 0%nat /\ Ascii.eqb c percent = false.
Proof. each_byte c; intros H; try discriminate H; split; reflexivity. Qed.

Lemma Decode_literal pending octets c s :
  Ascii.eqb c percent = false ->
  Decode pending octets (c :: s) =
    match pending with
    | O => cmap (cons c) (Decode 0 [] s)
    | S _ => Throw URI_malformed
    end.
Proof. intros H. simpl. rewrite H. reflexivity. Qed.

Lemma Decode_escape pending octets b s :
  Decode pending octets (escape b ++ s) =
    match pending with
    | O =>
        match leading_ones b with
        | O => cmap (cons b) (Decode 0 [] s)
        | 1%nat => Throw URI_malformed
        | S (S m) => if (2 <? m)%nat then Throw URI_malformed else Decode (S m) [b] s
        end
    | 1%nat =>
        if well_formed_utf8 (octets ++ [b])
        then cmap (app (octets ++ [b])) (Decode 0 [] s)
        else Throw URI_malformed
    | S p => Decode p (octets ++ [b]) s
    end.
Proof.
  unfold escape. cbn [app Decode].
  replace (Ascii.eqb percent percent) with true by reflexivity.
  rewrite parse_octet_escape. reflexivity.
Qed.

Lemma encode_cons c s :
  encodeURIComponent (c :: s) = encode_char c ++ encodeURIComponent s.
Proof. reflexivity. Qed.

Lemma encode_escaped c s :
  uriUnescaped c = false -> encodeURIComponent (c :: s) = escape c ++ encodeURIComponent s.
Proof. intros H. rewrite encode_cons. unfold encode_char. rewrite H. reflexivity. Qed.

Lemma span_not_encode s :
  span_not semicolon (encodeURIComponent s) = encodeURIComponent s.
Proof.
  induction s as [|c s IH]; [reflexivity |].
  rewrite encode_cons, span_not_encode_char, IH. reflexivity.
Qed.

Lemma encode_nonempty s : s <> [] -> encodeURIComponent s <> [].
Proof.
  destruct s as [|c s]; [congruence |]. intros _. rewrite encode_cons.
  unfold encode_char, escape. destruct (uriUnescaped c); discriminate.
Qed.

(** A byte of a multi-byte sequence is escaped, and the first one tells
    the length. *)
Lemma high_byte_escaped b : code_in 128 255 b = true -> uriUnescaped b = false.
Proof. each_byte b; intros H; try discriminate H; reflexivity. Qed.

Lemma code_in_high lo hi b :
  (128 <= lo)%nat -> code_in lo hi b = true -> code_in 128 255 b = true.
Proof.
  unfold code_in. intros Hlo H. apply andb_true_iff in H as [H1 H2].
  apply Nat.leb_le in H1. pose proof (nat_ascii_bounded b).
  apply andb_true_iff. split; apply Nat.leb_le; lia.
Qed.

Lemma lead_two b : code_in 194 223 b = true -> leading_ones b = 2%nat.
Proof. each_byte b; intros H; try discriminate H; reflexivity. Qed.

Lemma lead_three b : code_in 224 239 b = true -> leading_ones b = 3%nat.
Proof. each_byte b; intros H; try discriminate H; reflexivity. Qed.

Lemma lead_four b : code_in 240 244 b = true -> leading_ones b = 4%nat.
Proof. each_byte b; intros H; try discriminate H; reflexivity. Qed.

Lemma code_in_weaken lo hi lo' hi' b :
  (lo' <= lo)%nat -> (hi <= hi')%nat -> code_in lo hi b = true -> code_in lo' hi' b = true.
Proof.
  unfold code_in. intros Hlo Hhi H. apply andb_true_iff in H as [H1 H2].
  apply Nat.leb_le in H1. apply Nat.leb_le in H2.
  apply andb_true_iff. split; apply Nat.leb_le; lia.
Qed.

Ltac high H := apply high_byte_escaped; eapply code_in_high; [| exact H]; lia.

Lemma Decode_encode_sequence octets s :
  well_formed_utf8 octets = true ->
  Decode 0 [] (encodeURIComponent (octets ++ s))
  = cmap (app octets) (Decode 0 [] (encodeURIComponent s)).
Proof.
  intros Hwf. pose proof Hwf as Hwf'.
  destruct octets as [|b1 [|b2 [|b3 [|b4 [|b5 rest]]]]]; try discriminate Hwf.
  - simpl in Hwf. apply andb_true_iff in Hwf as [H1 H2]. unfold continuation in H2.
    cbn [app].
    rewrite (encode_escaped b1) by high H1.
    rewrite (encode_escaped b2) by high H2.
    rewrite Decode_escape, (lead_two b1 H1). cbn [Nat.ltb Nat.leb].
    rewrite Decode_escape. cbn [app]. rewrite Hwf'. reflexivity.
  - cbn [app].
    assert (H : code_in 224 239 b1 = true /\ code_in 128 191 b2 = true
                /\ code_in 128 191 b3 = true).
    { simpl in Hwf. unfold continuation in Hwf.
      repeat (apply orb_true_iff in Hwf as [Hwf | Hwf]);
        apply andb_true_iff in Hwf as [Hwf H3];
        apply andb_true_iff in Hwf as [H1 H2];
        (split; [| split]); eapply code_in_weaken; try eassumption; lia. }
    destruct H as (H1 & H2 & H3).
    rewrite (encode_escaped b1) by high H1.
    rewrite (encode_escaped b2) by high H2.
    rewrite (encode_escaped b3) by high H3.
    rewrite Decode_escape, (lead_three b1 H1). cbn [Nat.ltb Nat.leb].
    rewrite Decode_escape. cbn [app].
    rewrite Decode_escape. cbn [app]. rewrite Hwf'. reflexivity.
  - cbn [app].
    assert (H : code_in 240 244 b1 = true /\ code_in 128 191 b2 = true
                /\ code_in 128 191 b3 = true /\ code_in 128 191 b4 = true).
    { simpl in Hwf. unfold continuation in Hwf.
      repeat (apply orb_true_iff in Hwf as [Hwf | Hwf]);
        apply andb_true_iff in Hwf as [Hwf H4];
        apply andb_true_iff in Hwf as [Hwf H3];
        apply andb_true_iff in Hwf as [H1 H2];
        (split; [| split; [| split]]); eapply code_in_weaken; try eassumption; lia. }
    destruct H as (H1 & H2 & H3 & H4).
    rewrite (encode_escaped b1) by high H1.
    rewrite (encode_escaped b2) by high H2.
    rewrite (encode_escaped b3) by high H3.
    rewrite (encode_escaped b4) by high H4.
    rewrite Decode_escape, (lead_four b1 H1). cbn [Nat.ltb Nat.leb].
    rewrite Decode_escape. cbn [app].
    rewrite Decode_escape. cbn [app].
    rewrite Decode_escape. cbn [app]. rewrite Hwf'. reflexivity.
Qed.

Lemma Decode_encode_ascii c s :
  code_in 0 127 c = true ->
  Decode 0 [] (encodeURIComponent (c :: s))
  = cmap (cons c) (Decode 0 [] (encodeURIComponent s)).
Proof.
  intros Hc. rewrite encode_cons. unfold encode_char.
  destruct (uriUnescaped c) eqn:Hu.
  - destruct (unescaped_is_ascii c Hu) as [_ Hp]. cbn [app].
    rewrite Decode_literal by exact Hp. reflexivity.
  - rewrite Decode_escape.
    assert (Hl : leading_ones c = 0%nat) by (unfold leading_ones; rewrite Hc; reflexivity).
    rewrite Hl. reflexivity.
Qed.

Lemma decode_encode s :
  utf8 s -> decodeURIComponent (encodeURIComponent s) = Normal s.
Proof.
  unfold decodeURIComponent. induction 1 as [| c s Hc Hs IH | octets s Hwf Hs IH].
  - reflexivity.
  - rewrite Decode_encode_ascii by exact Hc. rewrite IH. reflexivity.
  - rewrite Decode_encode_sequence by exact Hwf. rewrite IH. reflexivity.
Qed.

Lemma exec_skip at_start c s :
  at_start (c :: s) = None -> exec at_start (c :: s) = exec at_start s.
Proof. intros H. simpl. rewrite H. reflexivity. Qed.

Lemma exec_here at_start s captured :
  at_start s = Some captured -> exec at_start s = Some captured.
Proof. intros H. destruct s; simpl; rewrite H; reflexivity. Qed.

(** In a header that is the word [attachment], the extended parameter and
    nothing else, the first pattern captures the whole value. *)
Lemma exec_extended value :
  value <> [] ->
  span_not semicolon value = value ->
  exec utf8_at (chars "attachment; filename*=UTF-8''" ++ value) = Some value.
Proof.
  intros Hne Hspan. cbn [chars list_ascii_of_string app].
  do 12 (rewrite exec_skip by reflexivity).
  apply exec_here. unfold utf8_at. cbn [chars list_ascii_of_string].
  replace (strip_prefix_ci _ _) with (Some value) by reflexivity.
  rewrite Hspan. destruct value; [congruence | reflexivity].
Qed.

Lemma exec_utf8_nonempty s : exec utf8_at s <> Some [].
Proof.
  induction s as [|c s IH]; simpl.
  - unfold utf8_at. simpl. discriminate.
  - destruct (utf8_at (c :: s)) as [captured|] eqn:Hat; [| exact IH].
    unfold utf8_at in Hat.
    destruct (strip_prefix_ci _ _) as [rest|]; [| discriminate].
    unfold plus in Hat. destruct (span_not semicolon rest); [discriminate |].
    injection Hat as <-. discriminate.
Qed.

(** C4, as amended.  (1) For every name that is not empty, the header made
    of the extended parameter and the percent-encoding of the name gives
    the name back, whatever the fallback.  (2) When the text captured by
    the extended pattern cannot be decoded, it is returned as it is.
    (3) [extractFilename] never throws. *)
Theorem extractFilename_round_trip :
  (forall f fallback,
     utf8 f -> f <> [] ->
     extractFilename (Some (chars "attachment; filename*=UTF-8''" ++ encodeURIComponent f))
       fallback
     = Normal f)
  /\
  (forall header fallback captured e,
     header <> [] ->
     exec utf8_at header = Some captured ->
     decodeURIComponent captured = Throw e ->
     extractFilename (Some header) fallback = Normal captured)
  /\
  (forall contentDisposition fallback,
     exists name, extractFilename contentDisposition fallback = Normal name).
Proof.
  split; [| split].
  - intros f fallback Hutf8 Hne. unfold extractFilename.
    rewrite exec_extended;
      [| apply encode_nonempty; exact Hne | apply span_not_encode].
    cbn [chars list_ascii_of_string app].
    pose proof (encode_nonempty f Hne) as Henc.
    destruct (encodeURIComponent f) as [|c captured] eqn:He; [congruence |].
    rewrite <- He, decode_encode by exact Hutf8. reflexivity.
  - intros header fallback captured e Hne Hexec Hthrow. unfold extractFilename.
    destruct header as [|h header]; [congruence |].
    rewrite Hexec. destruct captured as [|c captured].
    + exfalso. exact (exec_utf8_nonempty _ Hexec).
    + rewrite Hthrow. reflexivity.
  - intros contentDisposition fallback. unfold extractFilename.
    destruct contentDisposition as [[|h header]|]; eauto.
    destruct (exec utf8_at (h :: header)) as [[|c captured]|].
    + destruct (exec plain_at (h :: header)) as [[|c captured]|]; eauto.
    + destruct (decodeURIComponent (c :: captured)); simpl; eauto.
    + destruct (exec plain_at (h :: header)) as [[|c captured]|]; eauto.
Qed.

(** C4, as stated, fails for the empty name: the extended pattern needs one
    character at least, so the header has no match and the fallback is
    returned. *)
Lemma empty_name_falls_back :
  encodeURIComponent [] = [] /\
  extractFilename (Some (chars "attachment; filename*=UTF-8''" ++ encodeURIComponent []))
    (chars "document_7.pdf")
  = Normal (chars "document_7.pdf") /\
  extractFilename (Some (chars "attachment; filename*=UTF-8''" ++ encodeURIComponent []))
    (chars "document_7.pdf")
  <> Normal [].
Proof. split; [reflexivity |]. split; [reflexivity | discriminate]. Qed.

Lemma utf8_accented_name : utf8 Samples.accented_name.
Proof.
  unfold Samples.accented_name. cbn [chars list_ascii_of_string app].
  apply utf8_ascii; [reflexivity |].
  refine (utf8_multi [_; _] _ _ _); [reflexivity |].
  repeat (apply utf8_ascii; [reflexivity |]).
  apply utf8_nil.
Qed.

Lemma extractFilename_round_trip_witness :
  extractFilename
    (Some (chars "attachment; filename*=UTF-8''"
           ++ encodeURIComponent Samples.accented_name))
    (chars "document_7.pdf")
  = Normal Samples.accented_name
  /\
  extractFilename (Some (chars "inline; filename*=utf-8''100%25%2")) (chars "document_7.pdf")
  = Normal (chars "100%25%2").
Proof.
  destruct extractFilename_round_trip as (Hround & Hraw & _).
  split.
  - apply Hround; [exact utf8_accented_name | discriminate].
  - apply (Hraw _ _ _ URI_malformed); [discriminate | reflexivity | reflexivity].
Defined.

(** ** [triggerBrowserDownload] *)

(** On the path where nothing throws the object URL is revoked and the
    link is taken out of the document again. *)
Lemma triggerBrowserDownload_releases click_throws blob filename br :
  click_throws {| href := next_url br; download := filename |} = false ->
  object_urls br !! next_url br = None ->
  triggerBrowserDownload click_throws blob filename br =
    (Normal tt,
     {| object_urls := object_urls br;
        next_url := S (next_url br);
        body_children :=
          remove_first {| href := next_url br; download := filename |}
            (body_children br ++ [{| href := next_url br; download := filename |}]);
        saves := saves br ++ [(next_url br, filename)] |}).
Proof.
  intros Hclick Hfresh. unfold triggerBrowserDownload, createObjectURL, click. simpl.
  rewrite Hclick. unfold revokeObjectURL, removeChild. simpl.
  rewrite delete_insert_eq. rewrite delete_id by assumption. reflexivity.
Qed.

(** The download scenario: the save action is started under the name it was
    given, and afterwards no object URL is left and the document is as it
    was. *)
Example triggerBrowserDownload_policy_pdf :
  triggerBrowserDownload Samples.click_works Samples.pdf (chars "policy.pdf")
    Samples.fresh_browser
  = (Normal tt,
     {| object_urls := ∅;
        next_url := 1;
        body_children := [];
        saves := [(0%nat, chars "policy.pdf")] |}).
Proof. reflexivity. Qed.

(** The function has no [try] and no [finally]: were a step to throw,
    the steps behind it would not run.  For [link.click()] this is not a
    path the page takes; see the next theorem. *)
Remark triggerBrowserDownload_stops_at_a_throw click_throws blob filename br :
  click_throws {| href := next_url br; download := filename |} = true ->
  triggerBrowserDownload click_throws blob filename br
  = (Throw ClickFailed,
     {| object_urls := <[next_url br := blob]> (object_urls br);
        next_url := S (next_url br);
        body_children :=
          body_children br ++ [{| href := next_url br; download := filename |}];
        saves := saves br |}).
Proof.
  intros Hclick. unfold triggerBrowserDownload, createObjectURL, appendChild, click.
  simpl. rewrite Hclick. reflexivity.
Qed.





(** ** [getDocuments] *)

Lemma or_number_nonzero a b : b <> 0%Z -> or_number a b <> 0%Z.
Proof.
  intros Hb. unfold or_number. destruct a as [n|]; [| exact Hb].
  destruct (Z.eqb_spec n 0); [exact Hb | assumption].
Qed.

Lemma or_number_given n b : n <> 0%Z -> or_number (Some n) b = n.
Proof. intros Hn. unfold or_number. destruct (Z.eqb_spec n 0); [contradiction | reflexivity]. Qed.

Lemma or_number_missing a b : a = None \/ a = Some 0%Z -> or_number a b = b.
Proof. intros [-> | ->]; reflexivity. Qed.

Section ListFacts.

Variable Document : Type.
Variable client_get :
  string -> list (string * string) -> completion Failure (option (Payload.t Document)).

(** C5, as amended.  [getDocuments] always completes normally.  When the
    request fails, however it fails, the result is [EMPTY_RESPONSE]: no
    documents, no items, total 0, pages 1, page 1.  A response that arrives
    without a body, or with a body that has none of the fields, is no
    failure: it is normalised like every response, to no documents, no
    items, total 0 and pages 1 as well, but its page is the page that was
    asked for. *)
Theorem getDocuments_absorbs_failure filters :
  (exists r, getDocuments Document client_get filters = Normal r)
  /\
  (forall failure,
     client_get "/api/documents" (search_params filters) = Throw failure ->
     getDocuments Document client_get filters = Normal (EMPTY_RESPONSE Document))
  /\
  (DocumentListResponse.documents (EMPTY_RESPONSE Document) = [] /\
   DocumentListResponse.items (EMPTY_RESPONSE Document) = [] /\
   DocumentListResponse.total (EMPTY_RESPONSE Document) = 0%Z /\
   DocumentListResponse.pages (EMPTY_RESPONSE Document) = 1%Z /\
   DocumentListResponse.page (EMPTY_RESPONSE Document) = 1%Z)
  /\
  (forall response_data,
     client_get "/api/documents" (search_params filters) = Normal response_data ->
     response_data = None \/ response_data = Some Payload.empty ->
     exists r,
       getDocuments Document client_get filters = Normal r /\
       DocumentListResponse.documents r = [] /\
       DocumentListResponse.items r = [] /\
       DocumentListResponse.total r = 0%Z /\
       DocumentListResponse.pages r = 1%Z /\
       (forall p, DocumentFilters.page filters = Some p -> p <> 0%Z ->
                  DocumentListResponse.page r = p) /\
       (DocumentFilters.page filters = None \/ DocumentFilters.page filters = Some 0%Z ->
        DocumentListResponse.page r = 1%Z)).
Proof.
  split; [| split; [| split; [repeat split |]]].
  - unfold getDocuments.
    destruct (client_get "/api/documents" (search_params filters)); simpl; eauto.
  - intros failure Hfail. unfold getDocuments. rewrite Hfail. reflexivity.
  - intros response_data Hget Hbody. unfold getDocuments. rewrite Hget.
    assert (Hdata : default Payload.empty response_data = @Payload.empty Document)
      by (destruct Hbody as [-> | ->]; reflexivity).
    cbn [bind try_catch]. rewrite Hdata. eexists. split; [reflexivity |].
    cbn [DocumentListResponse.documents DocumentListResponse.items
         DocumentListResponse.total DocumentListResponse.pages
         DocumentListResponse.page Payload.documents Payload.total Payload.limit
         Payload.empty or_array].
    split; [reflexivity |]. split; [reflexivity |]. split; [reflexivity |].
    split; [reflexivity |]. split.
    + intros p Hp Hnz. rewrite Hp. apply or_number_given. exact Hnz.
    + intros Hp. apply or_number_missing. exact Hp.
Qed.

(** C6.  A response that arrives is normalised.  When its total is 0, or
    it has none, the total is 0 and there is one page.  When its total is
    a positive count, the limit in force (the one of the response, else
    the one of the filters, else 20) being positive, the total and the
    limit are kept and the page count is the ceiling of total over limit:
    the least number of pages of that size that hold the total.  The items
    are the documents of the response, and the page is the page that was
    asked for, 1 when none was. *)
Theorem getDocuments_page_count filters data :
  client_get "/api/documents" (search_params filters) = Normal (Some data) ->
  exists r,
    getDocuments Document client_get filters = Normal r /\
    (Payload.total data = Some 0%Z \/ Payload.total data = None ->
     DocumentListResponse.total r = 0%Z /\ DocumentListResponse.pages r = 1%Z)
    /\
    (forall total limit,
       Payload.total data = Some total -> (0 < total < 2 ^ 53)%Z ->
       (0 < limit)%Z ->
       Payload.limit data = Some limit \/
       (Payload.limit data = None \/ Payload.limit data = Some 0%Z) /\
         DocumentFilters.limit filters = Some limit \/
       (Payload.limit data = None \/ Payload.limit data = Some 0%Z) /\
         (DocumentFilters.limit filters = None \/ DocumentFilters.limit filters = Some 0%Z) /\
         limit = 20%Z ->
       DocumentListResponse.total r = total /\
       DocumentListResponse.page_size r = limit /\
       (limit * (DocumentListResponse.pages r - 1) < total
        <= limit * DocumentListResponse.pages r)%Z)
    /\
    DocumentListResponse.items r =
      match Payload.documents data with Some docs => docs | None => [] end
    /\
    (forall p, DocumentFilters.page filters = Some p -> p <> 0%Z ->
               DocumentListResponse.page r = p)
    /\
    (DocumentFilters.page filters = None \/ DocumentFilters.page filters = Some 0%Z ->
     DocumentListResponse.page r = 1%Z).
Proof.
  intros Hget. unfold getDocuments. rewrite Hget.
  cbn [bind try_catch default from_option id].
  eexists. split; [reflexivity |].
  cbn [DocumentListResponse.documents DocumentListResponse.items
       DocumentListResponse.total DocumentListResponse.pages
       DocumentListResponse.page DocumentListResponse.page_size].
  split; [| split; [| split; [| split]]].
  - intros Hzero. rewrite (or_number_missing _ 0%Z) by tauto.
    split; reflexivity.
  - intros total limit Htotal Hcount Hpos Hlimit.
    assert (Ht : or_number (Payload.total data) 0 = total)
      by (rewrite Htotal; apply or_number_given; lia).
    assert (Hl : or_number (Payload.limit data)
                   (or_number (DocumentFilters.limit filters) 20) = limit).
    { destruct Hlimit as [Hl | [[Hd Hf] | (Hd & Hf & ->)]].
      - rewrite Hl. apply or_number_given. lia.
      - rewrite (or_number_missing _ _ Hd), Hf. apply or_number_given. lia.
      - rewrite (or_number_missing _ _ Hd). apply or_number_missing. exact Hf. }
    rewrite Ht, Hl. split; [reflexivity |]. split; [reflexivity |].
    pose proof (NumberFacts.ceil_div_exact total limit Hcount Hpos) as Hceil.
    destruct (Z.eqb_spec (ceil_div total limit) 0) as [Hz | Hnz].
    + rewrite Hz in Hceil. lia.
    + exact Hceil.
  - destruct (Payload.documents data); reflexivity.
  - intros p Hp Hnz. rewrite Hp. apply or_number_given. exact Hnz.
  - intros Hp. apply or_number_missing. exact Hp.
Qed.

(** C10.  Whatever the request comes back with, [items] and [documents]
    of the result are one and the same list: the documents of the response
    (none when it has none) when it arrives, whatever [items] the response
    has of its own, and the empty list when the request fails. *)
Theorem getDocuments_items_are_documents filters :
  exists r,
    getDocuments Document client_get filters = Normal r /\
    DocumentListResponse.items r = DocumentListResponse.documents r /\
    DocumentListResponse.documents r =
      match client_get "/api/documents" (search_params filters) with
      | Normal response_data =>
          or_array (Payload.documents (default Payload.empty response_data)) []
      | Throw _ => []
      end.
Proof.
  unfold getDocuments.
  destruct (client_get "/api/documents" (search_params filters)); simpl;
    eexists; split; try reflexivity; split; reflexivity.
Qed.

End ListFacts.

Lemma getDocuments_absorbs_failure_witness :
  getDocuments string Samples.offline Samples.page_three = Normal (EMPTY_RESPONSE string)
  /\
  exists r,
    getDocuments string Samples.answers_nothing Samples.page_three = Normal r /\
    DocumentListResponse.items r = [] /\
    DocumentListResponse.total r = 0%Z /\
    DocumentListResponse.pages r = 1%Z /\
    DocumentListResponse.page r = 3%Z.
Proof.
  destruct (getDocuments_absorbs_failure string Samples.offline Samples.page_three)
    as (_ & Habsorb & _).
  split; [apply (Habsorb NetworkError); reflexivity |].
  destruct (getDocuments_absorbs_failure string Samples.answers_nothing Samples.page_three)
    as (_ & _ & _ & Hbody).
  destruct (Hbody None eq_refl (or_introl eq_refl))
    as (r & Hrun & _ & Hitems & Htotal & Hpages & Hpage & _).
  exists r. split; [exact Hrun |]. split; [exact Hitems |]. split; [exact Htotal |].
  split; [exact Hpages |]. apply Hpage; [reflexivity | discriminate].
Defined.

(** C5, as stated, fails: a response without a readable body is one of
    the failure modes it lists, and the result then has the page that was
    asked for, 3, where the empty result has 1. *)
Lemma unreadable_body_keeps_page :
  exists r,
    getDocuments string Samples.answers_nothing Samples.page_three = Normal r /\
    DocumentListResponse.page r = 3%Z /\
    DocumentListResponse.page (EMPTY_RESPONSE string) = 1%Z /\
    r <> EMPTY_RESPONSE string.
Proof.
  eexists. split; [reflexivity |]. split; [reflexivity |]. split; [reflexivity |].
  discriminate.
Qed.

(** The scenario of C6, with the default filters, and a response with 45
    documents in pages of 20. *)
Lemma getDocuments_page_count_witness :
  (exists r,
     getDocuments string (Samples.answers Samples.empty_page) DocumentFilters.empty
     = Normal r /\
     DocumentListResponse.items r = [] /\
     DocumentListResponse.total r = 0%Z /\
     DocumentListResponse.pages r = 1%Z /\
     DocumentListResponse.page r = 1%Z)
  /\
  (exists r,
     getDocuments string (Samples.answers Samples.page_with_items) Samples.page_three
     = Normal r /\
     DocumentListResponse.total r = 45%Z /\
     DocumentListResponse.page_size r = 20%Z /\
     DocumentListResponse.pages r = 3%Z /\
     DocumentListResponse.page r = 3%Z).
Proof.
  split.
  - destruct (getDocuments_page_count string (Samples.answers Samples.empty_page)
                DocumentFilters.empty Samples.empty_page eq_refl)
      as (r & Hrun & Hzero & _ & Hitems & _ & Hpage).
    destruct (Hzero (or_introl eq_refl)) as [Htotal Hpages].
    exists r. split; [exact Hrun |]. split; [exact Hitems |]. split; [exact Htotal |].
    split; [exact Hpages |]. apply Hpage. left. reflexivity.
  - destruct (getDocuments_page_count string (Samples.answers Samples.page_with_items)
                Samples.page_three Samples.page_with_items eq_refl)
      as (r & Hrun & _ & Hcount & _ & Hpage & _).
    destruct (Hcount 45%Z 20%Z eq_refl) as (Htotal & Hsize & Hceil);
      [lia | lia | left; reflexivity |].
    exists r. split; [exact Hrun |]. split; [exact Htotal |]. split; [exact Hsize |].
    split; [lia |]. apply Hpage; [reflexivity | discriminate].
Defined.

Lemma getDocuments_items_are_documents_witness :
  exists r,
    getDocuments string (Samples.answers Samples.page_with_items) Samples.page_three
    = Normal r /\
    DocumentListResponse.items r = ["a.pdf"; "b.pdf"] /\
    DocumentListResponse.documents r = ["a.pdf"; "b.pdf"].
Proof.
  destruct (getDocuments_items_are_documents string
              (Samples.answers Samples.page_with_items) Samples.page_three)
    as (r & Hrun & Hitems & Hdocs).
  exists r. split; [exact Hrun |]. rewrite Hitems, Hdocs. split; reflexivity.
Defined.

End DocumentsFacts.

(** * The notification channel: registration and delivery *)

Module ChannelFacts.
Import ToastBus.

Lemma set_has_registered l (es : SetData) :
  set_has l es = true <-> In l (registered es).
Proof.
  unfold set_has, registered. rewrite existsb_exists, <- list_elem_of_In, list_elem_of_omap.
  split.
  - intros ([l'|] & Hin & Heq); [| discriminate].
    apply Nat.eqb_eq in Heq as ->. exists (Some l). split; [| reflexivity].
    apply list_elem_of_In. exact Hin.
  - intros (e & Hin & Hid). destruct e as [l'|]; simpl in Hid; [| discriminate].
    injection Hid as ->. exists (Some l). split; [apply list_elem_of_In; exact Hin |].
    apply Nat.eqb_refl.
Qed.

Lemma registered_set_add l (es : SetData) :
  registered (set_add l es) =
    if set_has l es then registered es else registered es ++ [l].
Proof.
  unfold set_add. destruct (set_has l es); [reflexivity |].
  unfold registered. rewrite omap_app. reflexivity.
Qed.

Lemma registered_set_delete l (es : SetData) :
  registered (set_delete l es) = filter (fun l' => l' <> l) (registered es).
Proof.
  unfold registered, set_delete. induction es as [|[l'|] es IH]; simpl.
  - reflexivity.
  - destruct (Nat.eqb_spec l' l) as [-> | Hne]; simpl.
    + rewrite filter_cons_False by (intros H; apply H; reflexivity). exact IH.
    + rewrite filter_cons_True by exact Hne. f_equal. exact IH.
  - exact IH.
Qed.

Lemma set_delete_idempotent l (es : SetData) :
  set_delete l (set_delete l es) = set_delete l es.
Proof.
  unfold set_delete. rewrite map_map. apply map_ext. intros [l'|]; [| reflexivity].
  destruct (Nat.eqb l' l) eqn:E; [reflexivity | rewrite E; reflexivity].
Qed.

Lemma NoDup_set_add l (es : SetData) :
  NoDup (registered es) -> NoDup (registered (set_add l es)).
Proof.
  intros Hnd. rewrite registered_set_add. destruct (set_has l es) eqn:Hhas; [exact Hnd |].
  apply NoDup_app. split; [exact Hnd |]. split; [| apply NoDup_singleton].
  intros x Hx Hl. apply list_elem_of_singleton in Hl as ->.
  apply list_elem_of_In, set_has_registered in Hx. congruence.
Qed.

Lemma NoDup_set_delete l (es : SetData) :
  NoDup (registered es) -> NoDup (registered (set_delete l es)).
Proof. intros Hnd. rewrite registered_set_delete. apply NoDup_filter. exact Hnd. Qed.

Lemma NoDup_run_calls cs : forall b,
  NoDup (registered (listeners b)) ->
  NoDup (registered (listeners (fold_left run_call cs b))).
Proof.
  induction cs as [|c cs IH]; intros b Hnd; simpl; [exact Hnd |].
  apply IH. destruct c; simpl; [apply NoDup_set_add | apply NoDup_set_delete]; exact Hnd.
Qed.


Lemma filter_all {A} (P : A -> Prop) `{forall x, Decision (P x)} (l : list A) :
  (forall x, In x l -> P x) -> filter P l = l.
Proof.
  induction l as [|x l IH]; intros Hall; [reflexivity |].
  rewrite filter_cons_True by (apply Hall; left; reflexivity).
  f_equal. apply IH. intros y Hy. apply Hall. right. exact Hy.
Qed.

(** X1.  However [subscribeToasts] and the capabilities it returns are called,
    no listener is registered twice, so a publish to listeners that leave
    the channel alone calls every registered listener exactly once. *)
Theorem registration_is_duplicate_free (cs : list BusCall) :
  NoDup (registered (listeners (fold_left run_call cs empty_bus)))
  /\
  forall body fuel t,
    quiet body ->
    (length (listeners (fold_left run_call cs empty_bus)) < fuel)%nat ->
    exists b' calls,
      publishToast body fuel t (fold_left run_call cs empty_bus) = Some b' /\
      received b' = received (fold_left run_call cs empty_bus) ++ calls /\
      NoDup calls /\
      forall l, In (l, t) calls <-> In l (registered (listeners (fold_left run_call cs empty_bus))).
Proof.
  assert (Hnd : NoDup (registered (listeners (fold_left run_call cs empty_bus)))).
  { apply NoDup_run_calls. simpl. constructor. }
  split; [exact Hnd |].
  intros body fuel t Hq Hfuel.
  eexists. eexists. split; [apply ToastBusFacts.publishToast_quiet; assumption |].
  split; [reflexivity |]. split.
  - apply NoDup_fmap_2_strong; [| exact Hnd]. intros x y _ _ H. congruence.
  - intros l. rewrite in_map_iff. split.
    + intros (l' & Heq & Hin). congruence.
    + intros Hin. exists l. auto.
Qed.

(** X2.  The capability returned by [subscribeToasts] removes its listener and
    nothing else: the other listeners stay registered, in their order, and
    calling the capability again changes nothing. *)
Theorem unsubscribe_removes_exactly_its_listener l b :
  registered (listeners (unsubscribe l b))
  = filter (fun l' => l' <> l) (registered (listeners b))
  /\ ~ In l (registered (listeners (unsubscribe l b)))
  /\ unsubscribe l (unsubscribe l b) = unsubscribe l b.
Proof.
  assert (Hreg : registered (listeners (unsubscribe l b))
                 = filter (fun l' => l' <> l) (registered (listeners b))).
  { simpl. apply registered_set_delete. }
  split; [exact Hreg |]. split.
  - rewrite Hreg, <- list_elem_of_In, list_elem_of_filter. intros [Hne _]. congruence.
  - unfold unsubscribe, with_listeners. simpl. rewrite set_delete_idempotent. reflexivity.
Qed.

(** X3.  [subscribeToasts] registers a new listener behind the ones that are
    there and leaves the registration as it is when the listener is there
    already; for a new listener, the capability it returns undoes the
    registration. *)
Theorem subscribeToasts_registers_last l b :
  (In l (registered (listeners b)) ->
   registered (listeners (fst (subscribeToasts l b))) = registered (listeners b))
  /\
  (~ In l (registered (listeners b)) ->
   registered (listeners (fst (subscribeToasts l b))) = registered (listeners b) ++ [l] /\
   registered (listeners (snd (subscribeToasts l b) (fst (subscribeToasts l b))))
   = registered (listeners b)).
Proof.
  split.
  - intros Hin. simpl. rewrite registered_set_add.
    apply set_has_registered in Hin. rewrite Hin. reflexivity.
  - intros Hnot.
    assert (Hhas : set_has l (listeners b) = false).
    { destruct (set_has l (listeners b)) eqn:E; [| reflexivity].
      apply set_has_registered in E. contradiction. }
    assert (Hadd : registered (set_add l (listeners b)) = registered (listeners b) ++ [l]).
    { rewrite registered_set_add, Hhas. reflexivity. }
    split; [exact Hadd |].
    simpl. rewrite registered_set_delete, Hadd, filter_app.
    rewrite filter_cons_False by (intros H; apply H; reflexivity).
    rewrite filter_nil, app_nil_r.
    apply filter_all. intros x Hx ->. contradiction.
Qed.

Section Publishing.

Variable body : ToastListener -> list BusCall.




(** How often [l] stands in a list of entries. *)
Lemma occurrences_unregistered l (es : SetData) :
  ~ In l (registered es) -> filter (fun e => e = Some l) es = [].
Proof.
  induction es as [|[l0|] es IH]; intros Hnot; [reflexivity | |].
  - rewrite filter_cons_False.
    + apply IH. intros Hin. apply Hnot. simpl. right. exact Hin.
    + intros [= ->]. apply Hnot. simpl. left. reflexivity.
  - rewrite filter_cons_False by discriminate. apply IH. exact Hnot.
Qed.

Lemma occurrences_NoDup l (es : SetData) :
  NoDup (registered es) -> (length (filter (fun e => e = Some l) es) <= 1)%nat.
Proof.
  induction es as [|[l0|] es IH]; intros Hnd; simpl; [lia | |].
  - simpl in Hnd. apply NoDup_cons in Hnd as [Hnot Hnd].
    destruct (decide (l0 = l)) as [-> | Hne].
    + rewrite filter_cons_True by reflexivity.
      rewrite occurrences_unregistered; [simpl; lia |].
      intros Hin. apply Hnot, list_elem_of_In. exact Hin.
    + rewrite filter_cons_False by congruence. apply IH. exact Hnd.
  - rewrite filter_cons_False by discriminate. apply IH. exact Hnd.
Qed.

Lemma occurrences_run_call l c b k :
  c <> Subscribe l ->
  (k <= length (listeners b))%nat ->
  (length (filter (fun e => e = Some l) (drop k (listeners (run_call b c))))
   <= length (filter (fun e => e = Some l) (drop k (listeners b))))%nat.
Proof.
  intros Hc Hk. destruct c as [l0 | l0]; simpl.
  - unfold set_add. destruct (set_has l0 (listeners b)); [lia |].
    rewrite drop_app_le by exact Hk. rewrite filter_app, length_app.
    rewrite filter_cons_False by congruence. simpl. lia.
  - unfold set_delete. change (map ?f ?x) with (f <$> x). rewrite <- fmap_drop.
    induction (drop k (listeners b)) as [|[l1|] es IH]; simpl; [lia | |].
    + destruct (Nat.eqb_spec l1 l0) as [-> | Hne].
      * rewrite filter_cons_False by discriminate.
        destruct (decide (l0 = l)) as [-> | Hne'].
        -- rewrite filter_cons_True by reflexivity.
           etransitivity; [exact IH | simpl; lia].
        -- rewrite filter_cons_False by congruence. exact IH.
      * destruct (decide (l1 = l)) as [-> | Hne'].
        -- rewrite !filter_cons_True by reflexivity.
           cbn [length]. apply le_n_S. exact IH.
        -- rewrite !filter_cons_False by congruence. exact IH.
    + rewrite !filter_cons_False by discriminate. exact IH.
Qed.

Lemma occurrences_run_calls l cs : forall b k,
  ~ In (Subscribe l) cs ->
  (k <= length (listeners b))%nat ->
  (length (filter (fun e => e = Some l) (drop k (listeners (fold_left run_call cs b))))
   <= length (filter (fun e => e = Some l) (drop k (listeners b))))%nat.
Proof.
  induction cs as [|c cs IH]; intros b k Hcs Hk; simpl; [lia |].
  etransitivity.
  - apply IH; [intros Hin; apply Hcs; right; exact Hin |].
    destruct (ToastBusFacts.run_call_later b c) as [Hlen _]. lia.
  - apply occurrences_run_call; [| exact Hk]. intros ->. apply Hcs. left. reflexivity.
Qed.

Lemma forEach_calls_bounded l fuel : forall index t b b',
  (forall l', ~ In (Subscribe l) (body l')) ->
  forEach body fuel index t b = Some b' ->
  exists calls,
    received b' = received b ++ calls /\
    (length (filter (fun c => fst c = l) calls)
     <= length (filter (fun e => e = Some l) (drop index (listeners b))))%nat.
Proof.
  induction fuel as [|fuel IH]; intros index t b b' Hnever Hrun; simpl in Hrun;
    [discriminate |].
  destruct (listeners b !! index) as [[l0|]|] eqn:Hentry.
  - destruct (IH _ _ _ _ Hnever Hrun) as (calls & Hrec & Hbound).
    destruct (ToastBusFacts.call_listener_logs body l0 t b) as [_ Hr].
    exists ((l0, t) :: calls). split; [rewrite Hrec, Hr, <- app_assoc; reflexivity |].
    rewrite (drop_S _ _ _ Hentry).
    assert (Hle : (length (filter (fun e => e = Some l)
                             (drop (S index) (listeners (call_listener body l0 t b))))
                   <= length (filter (fun e => e = Some l)
                                (drop (S index) (listeners b))))%nat).
    { unfold call_listener.
      apply (occurrences_run_calls l (body l0)
               {| listeners := listeners b; published := published b;
                  received := received b ++ [(l0, t)] |}); [apply Hnever |].
      simpl. apply lookup_lt_Some in Hentry. lia. }
    destruct (decide (l0 = l)) as [-> | Hne].
    + rewrite !filter_cons_True by reflexivity. simpl. lia.
    + rewrite (filter_cons_False _ (l0, t)) by (simpl; congruence).
      rewrite (filter_cons_False _ (Some l0)) by congruence. lia.
  - destruct (IH _ _ _ _ Hnever Hrun) as (calls & Hrec & Hbound).
    exists calls. split; [exact Hrec |].
    rewrite (drop_S _ _ _ Hentry). rewrite filter_cons_False by discriminate. exact Hbound.
  - injection Hrun as <-. exists []. split; [rewrite app_nil_r; reflexivity |].
    simpl. lia.
Qed.

(** X5.  A listener that no listener registers again is called at most once by
    one [publishToast], whatever the listeners do to the channel
    meanwhile. *)
Theorem publishToast_calls_at_most_once l fuel t b b' :
  NoDup (registered (listeners b)) ->
  (forall l', ~ In (Subscribe l) (body l')) ->
  publishToast body fuel t b = Some b' ->
  exists calls,
    received b' = received b ++ calls /\
    (length (filter (fun c => fst c = l) calls) <= 1)%nat.
Proof.
  intros Hnd Hnever Hrun. unfold publishToast in Hrun.
  destruct (forEach_calls_bounded l _ _ _
              {| listeners := listeners b; published := published b ++ [t];
                 received := received b |} _ Hnever Hrun)
    as (calls & Hrec & Hbound).
  exists calls. split; [exact Hrec |].
  cbn [listeners] in Hbound. rewrite drop_0 in Hbound.
  etransitivity; [exact Hbound | apply occurrences_NoDup; exact Hnd].
Qed.

End Publishing.

End ChannelFacts.

(** * The interceptors: further facts *)

Module InterceptorFacts.
Import ToastBus Client.

Lemma numeral_colon_free s : numeral s = true -> colon_free s = true.
Proof.
  induction s as [|c s IH]; [reflexivity |]. simpl.
  intros [Hc Hs]%andb_true_iff. rewrite (IH Hs), andb_true_r.
  destruct (Ascii.eqb_spec c ":") as [-> |]; [discriminate Hc | reflexivity].
Qed.

Lemma pretty_N_char_numeral x : numeral_char (pretty_N_char x) = true.
Proof. unfold pretty_N_char. repeat case_match; reflexivity. Qed.

Lemma pretty_N_go_numeral x : forall s, numeral s = true -> numeral (pretty_N_go x s) = true.
Proof.
  induction (N.lt_wf_0 x) as [x _ IH]; intros s Hs.
  assert (x = 0 \/ 0 < x)%N as [-> | Hpos] by lia.
  - rewrite pretty_N_go_0. exact Hs.
  - rewrite pretty_N_go_step by exact Hpos. apply IH.
    + apply N.div_lt; [exact Hpos | reflexivity].
    + simpl. rewrite pretty_N_char_numeral, Hs. reflexivity.
Qed.

Lemma pretty_N_numeral (x : N) : numeral (pretty x) = true.
Proof.
  unfold pretty, pretty_N. case_decide; [reflexivity |].
  apply pretty_N_go_numeral. reflexivity.
Qed.

Lemma pretty_Z_numeral (z : Z) : numeral (pretty z) = true.
Proof.
  destruct z as [|p|p]; unfold pretty, pretty_Z; [reflexivity | |].
  - apply (pretty_N_numeral (Npos p)).
  - simpl. apply (pretty_N_numeral (Npos p)).
Qed.

Lemma key_split p1 : forall p2 m1 m2,
  colon_free p1 = true -> colon_free p2 = true ->
  p1 +:+ ":" +:+ m1 = p2 +:+ ":" +:+ m2 ->
  p1 = p2 /\ m1 = m2.
Proof.
  induction p1 as [|c1 p1 IH]; intros [|c2 p2] m1 m2 H1 H2 Heq; simpl in *.
  - injection Heq as Hm. auto.
  - injection Heq as Hc _. subst c2. discriminate H2.
  - injection Heq as Hc _. subst c1. discriminate H1.
  - injection Heq as Hc Heq. subst c2.
    apply andb_true_iff in H1 as [_ H1]. apply andb_true_iff in H2 as [_ H2].
    destruct (IH _ _ _ H1 H2 Heq) as [-> ->]. auto.
Qed.

Lemma status_text_colon_free failure : colon_free (status_text failure) = true.
Proof.
  unfold status_text. destruct (response_status failure) as [s|]; [| reflexivity].
  apply numeral_colon_free, pretty_Z_numeral.
Qed.

Lemma status_text_inj e1 e2 :
  status_text e1 = status_text e2 -> response_status e1 = response_status e2.
Proof.
  unfold status_text.
  destruct (response_status e1) as [s1|], (response_status e2) as [s2|]; intros H.
  - f_equal. apply (inj pretty). exact H.
  - pose proof (pretty_Z_numeral s1) as Hn. rewrite H in Hn. discriminate Hn.
  - pose proof (pretty_Z_numeral s2) as Hn. rewrite <- H in Hn. discriminate Hn.
  - reflexivity.
Qed.

Section Facts.

Variable trim : string -> string.
Variable toUpperCase : string -> string.
Variable body : ToastListener -> list BusCall.

(** X6.  Two failures have the same deduplication key exactly when they have
    the same status (or both have none) and the same message. *)
Theorem toast_key_differentiates e1 e2 :
  toast_key trim e1 = toast_key trim e2 <->
  response_status e1 = response_status e2 /\
  extractErrorMessage trim e1 = extractErrorMessage trim e2.
Proof.
  unfold toast_key. fold (status_text e1). fold (status_text e2). split.
  - intros Heq.
    destruct (key_split _ _ _ _ (status_text_colon_free e1) (status_text_colon_free e2) Heq)
      as [Hs Hm].
    split; [apply status_text_inj; exact Hs | exact Hm].
  - intros [Hs Hm]. unfold status_text. rewrite Hs, Hm. reflexivity.
Qed.

(** X7.  The message of an error toast is never blank: it is the fixed
    fallback, or a string that is not empty once trimmed. *)
Theorem extractErrorMessage_never_blank failure :
  extractErrorMessage trim failure = "Unexpected network error. Please try again."
  \/ truthy (trim (extractErrorMessage trim failure)) = true.
Proof.
  unfold extractErrorMessage.
  assert (Hm :
    match error_message failure with
    | Some m => if truthy (trim m) then m else "Unexpected network error. Please try again."
    | None => "Unexpected network error. Please try again."
    end = "Unexpected network error. Please try again."
    \/ truthy (trim match error_message failure with
                    | Some m => if truthy (trim m) then m
                                else "Unexpected network error. Please try again."
                    | None => "Unexpected network error. Please try again."
                    end) = true).
  { destruct (error_message failure) as [m|]; [| auto].
    destruct (truthy (trim m)) eqn:E; auto. }
  destruct (data <$> response failure) as [[s | fields |]|]; try exact Hm.
  - destruct (truthy (trim s)) eqn:E; [right; exact E | exact Hm].
  - destruct (fields !! "detail") as [[detail|]|]; try exact Hm.
    destruct (truthy (trim detail)) eqn:E; [right; exact E | exact Hm].
Qed.

(** X8.  The deduplication remembers one key only: fires whose key differs from
    the key of the fire before are all delivered, however close in time
    they are. *)
Theorem changing_keys_are_all_delivered fuel : forall fires w,
  quiet body ->
  (length (listeners (bus w)) < fuel)%nat ->
  (forall t failure, In (t, failure) fires -> generic failure) ->
  changing_keys trim (lastToastKey w) fires ->
  exists w',
    fire_all trim body fuel fires w = Some w' /\
    published (bus w') =
      published (bus w) ++ map (fun fire => error_toast trim (snd fire)) fires.
Proof.
  induction fires as [|[t failure] rest IH]; intros w Hq Hfuel Hgen Hkeys.
  - exists w. simpl. rewrite app_nil_r. auto.
  - destruct Hkeys as [Hne Hkeys]. simpl.
    rewrite ClientFacts.fire_quiet;
      [| assumption | assumption | apply (Hgen t); left; reflexivity].
    assert (Hs : suppressed (toast_key trim failure) (set_now t w) = false).
    { unfold suppressed. simpl. apply andb_false_iff. left.
      apply String.eqb_neq. exact Hne. }
    rewrite Hs.
    destruct (IH (set_bus (deliver (error_toast trim failure) (bus w))
                    (set_last (toast_key trim failure) t (set_now t w))))
      as (w' & Hrun & Hpub).
    + assumption.
    + simpl. exact Hfuel.
    + intros t' failure' Hin. apply (Hgen t'). right. exact Hin.
    + simpl. exact Hkeys.
    + exists w'. split; [exact Hrun |]. rewrite Hpub. simpl.
      rewrite <- app_assoc. reflexivity.
Qed.


(** The headers the request handler leaves behind. *)
Lemma request_onFulfilled_headers config w :
  request_onFulfilled toUpperCase config w =
    {| method := method config;
       headers :=
         (let h := match getItem_truthy "access_token" w with
                   | Some token => <["Authorization" := "Bearer " +:+ token]> (headers config)
                   | None => headers config
                   end in
          if bool_decide (effective_method toUpperCase config ∈ MUTATING_METHODS)
          then match getItem_truthy "csrf_token" w with
               | Some csrfToken => <["x-csrf-token" := csrfToken]> h
               | None => h
               end
          else h);
       url := url config;
       params := params config;
       request_data := request_data config |}.
Proof.
  unfold request_onFulfilled, set_header.
  destruct (getItem_truthy "access_token" w) as [token|];
    destruct (getItem_truthy "csrf_token" w) as [csrf|];
    unfold effective_method; simpl; case_bool_decide; simpl;
    destruct config; reflexivity.
Qed.

(** X10.  Running the request handler again on its own result changes nothing
    more. *)
Theorem request_onFulfilled_idempotent config w :
  request_onFulfilled toUpperCase (request_onFulfilled toUpperCase config w) w
  = request_onFulfilled toUpperCase config w.
Proof.
  rewrite (request_onFulfilled_headers (request_onFulfilled toUpperCase config w)).
  rewrite (request_onFulfilled_headers config).
  unfold effective_method. cbn [method headers url params request_data].
  f_equal.
  destruct (getItem_truthy "access_token" w) as [token|];
    destruct (getItem_truthy "csrf_token" w) as [csrf|];
    case_bool_decide; cbn zeta; rewrite ?insert_insert_eq; try reflexivity.
  rewrite (insert_insert_ne _ "Authorization" "x-csrf-token") by discriminate.
  rewrite !insert_insert_eq. reflexivity.
Qed.

(** X11.  After a failure answered with 401 has been handled, requests go out
    without credentials: the request handler returns every request as it
    came. *)
Theorem no_credentials_after_unauthorized fuel failure w r w' config :
  response_status failure = Some 401%Z ->
  response_onRejected trim body fuel failure w = Some (r, w') ->
  localStorage w' !! "access_token" = None /\
  localStorage w' !! "csrf_token" = None /\
  localStorage w' !! "user" = None /\
  (forall key, key <> "access_token" -> key <> "csrf_token" -> key <> "user" ->
     localStorage w' !! key = localStorage w !! key) /\
  request_onFulfilled toUpperCase config w' = config.
Proof.
  intros H401 Hrun. unfold response_onRejected in Hrun.
  rewrite bool_decide_eq_true_2 in Hrun by exact H401.
  destruct (publishToast body fuel session_expired_toast (bus w)) as [b|];
    [| discriminate].
  injection Hrun as _ <-.
  assert (Hstore : forall s,
    localStorage (if String.prefix "/login" s
                  then removeItem "user" (removeItem "csrf_token"
                         (removeItem "access_token" (set_bus b w)))
                  else assign_href "/login" (removeItem "user" (removeItem "csrf_token"
                         (removeItem "access_token" (set_bus b w)))))
    = delete "user" (delete "csrf_token" (delete "access_token" (localStorage w)))).
  { intros s. destruct (String.prefix "/login" s); reflexivity. }
  split; [| split; [| split; [| split]]].
  - rewrite Hstore. rewrite !lookup_delete_ne by discriminate. apply lookup_delete_eq.
  - rewrite Hstore. rewrite lookup_delete_ne by discriminate. apply lookup_delete_eq.
  - rewrite Hstore. apply lookup_delete_eq.
  - intros key H1 H2 H3. rewrite Hstore. rewrite !lookup_delete_ne by congruence.
    reflexivity.
  - unfold request_onFulfilled, getItem_truthy. rewrite Hstore.
    rewrite !lookup_delete_ne by discriminate. rewrite lookup_delete_eq.
    rewrite lookup_delete_ne by discriminate. rewrite lookup_delete_eq.
    destruct (bool_decide _); destruct config; reflexivity.
Qed.

Lemma unauthorized_result fuel failure w r w' :
  response_status failure = Some 401%Z ->
  response_onRejected trim body fuel failure w = Some (r, w') ->
  pathname w' = pathname w /\
  localStorage w' =
    delete "user" (delete "csrf_token" (delete "access_token" (localStorage w))) /\
  effects w' =
    effects w
    ++ [RemoveItem "access_token"; RemoveItem "csrf_token"; RemoveItem "user"]
    ++ (if String.prefix "/login" (pathname w) then [] else [AssignHref "/login"]).
Proof.
  intros H401 Hrun. unfold response_onRejected in Hrun.
  rewrite bool_decide_eq_true_2 in Hrun by exact H401.
  destruct (publishToast body fuel session_expired_toast (bus w)) as [b|];
    [| discriminate].
  injection Hrun as _ <-. unfold removeItem, assign_href, set_bus. cbn [pathname].
  destruct (String.prefix "/login" (pathname w)); simpl;
    repeat rewrite <- app_assoc; auto.
Qed.

(** X12.  The session guard is no latch.  A second failure answered with 401
    finds the credentials gone and leaves the storage as it is, but it
    removes the three keys again and, the path being what it was, assigns
    the login location again unless the path starts with it. *)
Theorem second_unauthorized_repeats fuel first second w r1 w1 r2 w2 :
  response_status first = Some 401%Z ->
  response_status second = Some 401%Z ->
  response_onRejected trim body fuel first w = Some (r1, w1) ->
  response_onRejected trim body fuel second w1 = Some (r2, w2) ->
  localStorage w2 = localStorage w1 /\
  effects w2 =
    effects w1
    ++ [RemoveItem "access_token"; RemoveItem "csrf_token"; RemoveItem "user"]
    ++ (if String.prefix "/login" (pathname w) then [] else [AssignHref "/login"]).
Proof.
  intros H1 H2 Hrun1 Hrun2.
  destruct (unauthorized_result _ _ _ _ _ H1 Hrun1) as (Hpath1 & Hstore1 & _).
  destruct (unauthorized_result _ _ _ _ _ H2 Hrun2) as (_ & Hstore2 & Heffects2).
  split.
  - rewrite Hstore2, Hstore1. apply map_eq. intros key.
    rewrite !lookup_delete. repeat case_decide; reflexivity.
  - rewrite Heffects2, Hpath1. reflexivity.
Qed.

End Facts.

End InterceptorFacts.

(** * File names, downloads and the export *)

Module DownloadFacts.
Import Documents.

Ltac each_byte c := DocumentsFacts.each_byte c.

Lemma canonicalize_star c : Ascii.eqb (canonicalize star) (canonicalize c) = true -> c = star.
Proof. each_byte c; intros H; try discriminate H; reflexivity. Qed.

Lemma canonicalize_equals c :
  Ascii.eqb (canonicalize equals) (canonicalize c) = true -> c = equals.
Proof. each_byte c; intros H; try discriminate H; reflexivity. Qed.

Ltac step_prefix H :=
  match type of H with
  | context [Ascii.eqb ?a ?b] =>
      let E := fresh "E" in destruct (Ascii.eqb a b) eqn:E; [| discriminate H]
  end.

(** Where the first pattern matches, a star stands eight characters on. *)
Lemma utf8_at_star s captured : utf8_at s = Some captured -> s !! 8%nat = Some star.
Proof.
  unfold utf8_at.
  destruct (strip_prefix_ci (chars "filename*=UTF-8''") s) as [rest|] eqn:Hstrip;
    [| discriminate].
  intros _. cbn [chars list_ascii_of_string] in Hstrip.
  destruct s as [|c0 [|c1 [|c2 [|c3 [|c4 [|c5 [|c6 [|c7 [|c8 s]]]]]]]]];
    cbn [strip_prefix_ci] in Hstrip; try discriminate Hstrip;
    repeat (step_prefix Hstrip; try discriminate Hstrip).
  all: try discriminate Hstrip.
  simpl. f_equal.
  match goal with H : Ascii.eqb _ (canonicalize c8) = true |- _ =>
    apply canonicalize_star in H; exact H end.
Qed.

Lemma lookup_Forall_ne (stop : ascii) (q r : list ascii) (i : nat) :
  Forall (fun c => c <> stop) q -> (i < length q)%nat -> (q ++ r) !! i <> Some stop.
Proof.
  intros Hq Hi Hlook. rewrite lookup_app_l in Hlook by exact Hi.
  rewrite Forall_forall in Hq. apply (Hq stop); [| reflexivity].
  eapply list_elem_of_lookup_2. exact Hlook.
Qed.

(** No match starts inside a prefix without the marker character, when
    the text behind the prefix begins with the word [filename]. *)
Lemma exec_past_prefix (at_start : list ascii -> option (list ascii)) (stop : ascii) :
  (forall s captured, at_start s = Some captured -> s !! 8%nat = Some stop) ->
  stop <> "f"%char -> stop <> "i"%char -> stop <> "l"%char -> stop <> "e"%char ->
  stop <> "n"%char -> stop <> "a"%char -> stop <> "m"%char ->
  forall p rest,
    Forall (fun c => c <> stop) p ->
    exec at_start (p ++ chars "filename" ++ rest) = exec at_start (chars "filename" ++ rest).
Proof.
  intros Hat Hf Hi Hl He Hn Ha Hm p rest.
  induction p as [|c p IH]; intros Hp; [reflexivity |].
  apply Forall_cons in Hp as [Hc Hp].
  cbn [app]. rewrite DocumentsFacts.exec_skip; [apply IH; exact Hp |].
  destruct (at_start (c :: p ++ chars "filename" ++ rest)) as [captured|] eqn:E;
    [| reflexivity].
  exfalso. apply Hat in E.
  change (c :: p ++ chars "filename" ++ rest)
    with ((c :: p) ++ chars "filename" ++ rest) in E.
  rewrite app_assoc in E. revert E. apply lookup_Forall_ne.
  - apply Forall_app. split; [constructor; assumption |].
    cbn [chars list_ascii_of_string]. repeat constructor; congruence.
  - rewrite length_app. cbn [chars list_ascii_of_string length]. simpl. lia.
Qed.

Lemma exec_absent (at_start : list ascii -> option (list ascii)) (stop : ascii) :
  (forall s captured, at_start s = Some captured -> s !! 8%nat = Some stop) ->
  forall s, Forall (fun c => c <> stop) s -> exec at_start s = None.
Proof.
  intros Hat s. induction s as [|c s IH]; intros Hs.
  - simpl. destruct (at_start []) eqn:E; [| reflexivity].
    apply Hat in E. discriminate E.
  - assert (Hnone : at_start (c :: s) = None).
    { destruct (at_start (c :: s)) eqn:E; [| reflexivity].
      exfalso. apply Hat in E. rewrite Forall_forall in Hs. apply (Hs stop); [| reflexivity].
      eapply list_elem_of_lookup_2. exact E. }
    rewrite DocumentsFacts.exec_skip by exact Hnone.
    apply IH. apply Forall_cons in Hs as [_ Hs]. exact Hs.
Qed.

Lemma span_not_value (stop : ascii) (value tail : list ascii) :
  Forall (fun c => c <> stop) value ->
  tail = [] \/ (exists t, tail = stop :: t) ->
  span_not stop (value ++ tail) = value.
Proof.
  intros Hvalue Htail. induction Hvalue as [|c value Hc _ IH]; cbn [app span_not].
  - destruct Htail as [-> | [t ->]]; [reflexivity |].
    cbn [span_not]. rewrite Ascii.eqb_refl. reflexivity.
  - destruct (Ascii.eqb_spec c stop); [contradiction |]. rewrite IH. reflexivity.
Qed.

Lemma encode_no_semicolon f : Forall (fun c => c <> semicolon) (encodeURIComponent f).
Proof.
  induction f as [|c f IH]; [constructor |].
  rewrite DocumentsFacts.encode_cons. apply Forall_app. split; [| exact IH].
  clear. each_byte c; repeat constructor; discriminate.
Qed.

(** X13.  The extended form is found wherever it stands: behind any parameters
    that hold no star, a plain [filename=] parameter included, and in
    front of any further parameters.  Its decoded value is the result. *)
Theorem extended_form_wins p f tail fallback :
  Forall (fun c => c <> star) p ->
  utf8 f -> f <> [] ->
  tail = [] \/ (exists t, tail = semicolon :: t) ->
  extractFilename
    (Some (p ++ chars "filename*=UTF-8''" ++ encodeURIComponent f ++ tail)) fallback
  = Normal f.
Proof.
  intros Hp Hutf8 Hne Htail.
  assert (Hexec :
    exec utf8_at (p ++ chars "filename*=UTF-8''" ++ encodeURIComponent f ++ tail)
    = Some (encodeURIComponent f)).
  { change (chars "filename*=UTF-8''") with (chars "filename" ++ chars "*=UTF-8''").
    rewrite <- (app_assoc (chars "filename")).
    rewrite (exec_past_prefix utf8_at star utf8_at_star) by (discriminate || exact Hp).
    apply DocumentsFacts.exec_here. unfold utf8_at.
    cbn [chars list_ascii_of_string app].
    replace (strip_prefix_ci _ _) with (Some (encodeURIComponent f ++ tail)) by reflexivity.
    rewrite span_not_value by (apply encode_no_semicolon || exact Htail).
    pose proof (DocumentsFacts.encode_nonempty f Hne).
    destruct (encodeURIComponent f); [congruence | reflexivity]. }
  unfold extractFilename. rewrite Hexec.
  pose proof (DocumentsFacts.encode_nonempty f Hne) as Henc.
  destruct (p ++ chars "filename*=UTF-8''" ++ encodeURIComponent f ++ tail) eqn:Hheader.
  { destruct p; discriminate Hheader. }
  destruct (encodeURIComponent f) as [|c captured] eqn:He; [congruence |].
  rewrite <- He, DocumentsFacts.decode_encode by exact Hutf8. reflexivity.
Qed.

(** Where the word [filename=] is matched, an equals sign stands eight
    characters on. *)
Lemma strip_filename_equals s rest :
  strip_prefix_ci (chars "filename=") s = Some rest -> s !! 8%nat = Some equals.
Proof.
  intros Hstrip. cbn [chars list_ascii_of_string] in Hstrip.
  destruct s as [|c0 [|c1 [|c2 [|c3 [|c4 [|c5 [|c6 [|c7 [|c8 s]]]]]]]]];
    cbn [strip_prefix_ci] in Hstrip; try discriminate Hstrip;
    repeat (step_prefix Hstrip; try discriminate Hstrip).
  all: try discriminate Hstrip.
  simpl. f_equal.
  match goal with H : Ascii.eqb _ (canonicalize c8) = true |- _ =>
    apply canonicalize_equals in H; exact H end.
Qed.

(** A match that ends inside [q] is a match in [q]. *)
Lemma strip_prefix_ci_inside pattern : forall q t rest,
  strip_prefix_ci pattern (q ++ t) = Some rest ->
  (length pattern <= length q)%nat ->
  exists rest', strip_prefix_ci pattern q = Some rest'.
Proof.
  induction pattern as [|p pattern IH]; intros q t rest Hstrip Hlen.
  - exists q. destruct q; reflexivity.
  - destruct q as [|c q]; [simpl in Hlen; lia |].
    cbn [app strip_prefix_ci] in *.
    destruct (Ascii.eqb (canonicalize p) (canonicalize c)); [| discriminate Hstrip].
    apply (IH q t rest Hstrip). simpl in Hlen. lia.
Qed.

(** No match of the second pattern starts in front of the first
    [filename=] of the header. *)
Lemma exec_plain_at_first p value :
  contains_ci (chars "filename=") p = false ->
  exec plain_at (p ++ chars "filename=" ++ value)
  = exec plain_at (chars "filename=" ++ value).
Proof.
  induction p as [|c p IH]; intros Hfree; [reflexivity |].
  cbn [contains_ci] in Hfree.
  destruct (strip_prefix_ci (chars "filename=") (c :: p)) as [found|] eqn:Hhere;
    [discriminate Hfree |].
  cbn [app]. rewrite DocumentsFacts.exec_skip; [apply IH; exact Hfree |].
  destruct (plain_at (c :: p ++ chars "filename=" ++ value)) as [captured|] eqn:Hat;
    [exfalso | reflexivity].
  unfold plain_at in Hat.
  destruct (strip_prefix_ci (chars "filename=") (c :: p ++ chars "filename=" ++ value))
    as [rest|] eqn:Hstrip; [clear Hat | discriminate Hat].
  destruct (Nat.le_gt_cases 9 (length (c :: p))) as [Hlong | Hshort].
  - change (c :: p ++ chars "filename=" ++ value)
      with ((c :: p) ++ chars "filename=" ++ value) in Hstrip.
    destruct (strip_prefix_ci_inside _ _ _ _ Hstrip Hlong) as [rest' Hinside].
    congruence.
  - apply strip_filename_equals in Hstrip.
    change (c :: p ++ chars "filename=" ++ value)
      with ((c :: p) ++ chars "filename" ++ [equals] ++ value) in Hstrip.
    rewrite app_assoc in Hstrip. revert Hstrip.
    rewrite lookup_app_l
      by (rewrite length_app; cbn [chars list_ascii_of_string length] in *; lia).
    clear -Hshort. cbn [length] in Hshort.
    destruct p as [|c1 [|c2 [|c3 [|c4 [|c5 [|c6 [|c7 [|c8 p]]]]]]]];
      cbn [length] in Hshort; try lia; cbn; discriminate.
Qed.

(** X14.  The plain form.  A header without a star has no extended form; then
    the value behind the first [filename=] of the header, whatever
    parameters stand in front of it, is the result: between the double
    quotes when it is quoted, and up to the next double quote or the end
    of the header, further parameters included, when it is not. *)
Theorem plain_form_value p name rest fallback :
  Forall (fun c => c <> star) (p ++ name ++ rest) ->
  contains_ci (chars "filename=") p = false ->
  Forall (fun c => c <> double_quote) name ->
  name <> [] ->
  extractFilename
    (Some (p ++ chars "filename=" ++ [double_quote] ++ name ++ [double_quote] ++ rest))
    fallback
  = Normal name
  /\
  extractFilename (Some (p ++ chars "filename=" ++ name ++ [double_quote] ++ rest)) fallback
  = Normal name
  /\
  extractFilename (Some (p ++ chars "filename=" ++ name)) fallback = Normal name.
Proof.
  intros Hstar Heq Hname Hne.
  apply Forall_app in Hstar as [Hp Hstar]. apply Forall_app in Hstar as [Hn Hr].
  assert (Hplain : forall value,
    Forall (fun c => c <> star) value ->
    (exists c v, value = c :: v) ->
    forall captured,
      plain_at (chars "filename=" ++ value) = Some captured ->
      captured <> [] ->
      extractFilename (Some (p ++ chars "filename=" ++ value)) fallback = Normal captured).
  { intros value Hv (c0 & v & ->) captured Hat Hcap. unfold extractFilename.
    destruct (p ++ chars "filename=" ++ c0 :: v) eqn:Hheader.
    { destruct p; discriminate Hheader. }
    rewrite <- Hheader.
    rewrite (exec_absent utf8_at star utf8_at_star).
    2:{ apply Forall_app. split; [exact Hp |]. apply Forall_app. split; [| exact Hv].
        cbn [chars list_ascii_of_string]. repeat constructor; discriminate. }
    rewrite (exec_plain_at_first p (c0 :: v) Heq).
    rewrite (DocumentsFacts.exec_here plain_at _ captured) by exact Hat.
    destruct captured; [congruence | reflexivity]. }
  assert (Hvalue : forall tail,
    tail = [] \/ (exists t, tail = double_quote :: t) ->
    span_not double_quote (name ++ tail) = name).
  { intros tail Htail. apply span_not_value; assumption. }
  destruct name as [|c0 name]; [congruence |].
  apply Forall_cons in Hname as Hname'. destruct Hname' as [Hc0 _].
  split; [| split].
  - apply (Hplain ([double_quote] ++ (c0 :: name) ++ [double_quote] ++ rest)).
    + apply Forall_app. split; [repeat constructor; discriminate |].
      apply Forall_app. split; [exact Hn |].
      apply Forall_app. split; [repeat constructor; discriminate | exact Hr].
    + eauto.
    + unfold plain_at. cbn [chars list_ascii_of_string app].
      replace (strip_prefix_ci _ _)
        with (Some (double_quote :: (c0 :: name) ++ double_quote :: rest)) by reflexivity.
      rewrite Ascii.eqb_refl.
      rewrite (Hvalue (double_quote :: rest)) by eauto. reflexivity.
    + discriminate.
  - apply (Hplain ((c0 :: name) ++ [double_quote] ++ rest)).
    + apply Forall_app. split; [exact Hn |].
      apply Forall_app. split; [repeat constructor; discriminate | exact Hr].
    + cbn [app]. eauto.
    + unfold plain_at. cbn [chars list_ascii_of_string app].
      replace (strip_prefix_ci _ _)
        with (Some (c0 :: name ++ double_quote :: rest)) by reflexivity.
      destruct (Ascii.eqb_spec c0 double_quote); [contradiction |].
      change (c0 :: name ++ double_quote :: rest)
        with ((c0 :: name) ++ double_quote :: rest).
      rewrite (Hvalue (double_quote :: rest)) by eauto. reflexivity.
    + discriminate.
  - apply (Hplain (c0 :: name)).
    + exact Hn.
    + eauto.
    + unfold plain_at. cbn [chars list_ascii_of_string app].
      replace (strip_prefix_ci _ _) with (Some (c0 :: name)) by reflexivity.
      destruct (Ascii.eqb_spec c0 double_quote); [contradiction |].
      rewrite <- (app_nil_r (c0 :: name)) at 1.
      rewrite (Hvalue []) by auto. reflexivity.
    + discriminate.
Qed.





(** The characters [encodeURIComponent] writes. *)
Lemma encode_alphabet s :
  Forall (fun c => uriUnescaped c = true \/ c = percent) (encodeURIComponent s).
Proof.
  induction s as [|c s IH]; [constructor |].
  rewrite DocumentsFacts.encode_cons. apply Forall_app. split; [| exact IH].
  assert (Hc : forallb (fun x => uriUnescaped x || Ascii.eqb x percent) (encode_char c)
               = true).
  { clear. each_byte c; reflexivity. }
  rewrite forallb_forall in Hc. apply Forall_forall. intros x Hx.
  apply list_elem_of_In, Hc, orb_true_iff in Hx as [Hx | Hx]; [left; exact Hx |].
  right. apply Ascii.eqb_eq. exact Hx.
Qed.

(** X16.  The download URL with a token is the one without, [?token=] and a
    value made of unescaped characters and percent escapes only (so none
    of [& = # ? /] and no space), which decodes to the token. *)
Theorem getDocumentDownloadUrl_token API_URL documentId token :
  utf8 token -> token <> [] ->
  exists value,
    getDocumentDownloadUrl API_URL documentId (Some token)
    = getDocumentDownloadUrl API_URL documentId None ++ chars "?token=" ++ value /\
    Forall (fun c => uriUnescaped c = true \/ c = percent) value /\
    decodeURIComponent value = Normal token.
Proof.
  intros Hutf8 Hne. exists (encodeURIComponent token).
  split; [| split].
  - unfold getDocumentDownloadUrl. destruct token; [congruence |].
    rewrite <- !app_assoc. reflexivity.
  - apply encode_alphabet.
  - apply DocumentsFacts.decode_encode. exact Hutf8.
Qed.

Lemma extractFilename_returns contentDisposition fallback :
  exists name, extractFilename contentDisposition fallback = Normal name.
Proof.
  unfold extractFilename.
  destruct contentDisposition as [[|h header]|]; eauto.
  destruct (exec utf8_at (h :: header)) as [[|c captured]|].
  - destruct (exec plain_at (h :: header)) as [[|c captured]|]; eauto.
  - destruct (decodeURIComponent (c :: captured)); simpl; eauto.
  - destruct (exec plain_at (h :: header)) as [[|c captured]|]; eauto.
Qed.

Section Downloads.

Variable click_throws : Anchor -> bool.
Variable client_get_blob :
  string -> list (string * string) -> completion Failure BlobResponse.

(** X17.  [downloadDocument] lets a failed request through to its caller and
    leaves the browser as it was.  When the response arrives and the save
    action works, one save is started, under the name [extractFilename]
    reads from the content-disposition header with [document_<id>.pdf] as
    the fallback, and no object URL is left behind. *)
Theorem downloadDocument_saves_once documentId br :
  (forall failure,
     client_get_blob ("/api/documents/" +:+ pretty documentId +:+ "/download") []
     = Throw failure ->
     downloadDocument click_throws client_get_blob documentId br
     = (Throw (RequestFailed failure), br))
  /\
  (forall response,
     client_get_blob ("/api/documents/" +:+ pretty documentId +:+ "/download") []
     = Normal response ->
     exists name,
       extractFilename (Some (content_disposition response))
         (chars ("document_" +:+ pretty documentId +:+ ".pdf")) = Normal name /\
       (content_disposition response = [] ->
        name = chars ("document_" +:+ pretty documentId +:+ ".pdf")) /\
       (click_throws {| href := next_url br; download := name |} = false ->
        object_urls br !! next_url br = None ->
        exists br',
          downloadDocument click_throws client_get_blob documentId br = (Normal tt, br') /\
          saves br' = saves br ++ [(next_url br, name)] /\
          object_urls br' = object_urls br)).
Proof.
  split.
  - intros failure Hget. unfold downloadDocument. rewrite Hget. reflexivity.
  - intros response Hget.
    destruct (extractFilename_returns (Some (content_disposition response))
                (chars ("document_" +:+ pretty documentId +:+ ".pdf"))) as [name Hname].
    exists name. split; [exact Hname |]. split.
    + intros Hempty. rewrite Hempty in Hname. unfold extractFilename in Hname.
      injection Hname as <-. reflexivity.
    + intros Hclick Hfresh. unfold downloadDocument. rewrite Hget, Hname.
      rewrite (DocumentsFacts.triggerBrowserDownload_releases _ _ _ _ Hclick Hfresh).
      eexists. split; [reflexivity |]. split; reflexivity.
Qed.

(** X18.  [downloadAllDocuments] sends the crawl session as a parameter unless
    there is none or it is 0, lets a failed request through, and otherwise
    starts one save.  Without a content-disposition header the name is
    [policycheck_documents_<id>.zip], with [all] for the identifier when
    there is none; an identifier 0 is in the name although it was not
    sent. *)
Theorem downloadAllDocuments_saves_once crawlSessionId br :
  let params :=
    match crawlSessionId with
    | Some id => if (id =? 0)%Z then [] else [("crawl_session_id", pretty id)]
    | None => []
    end in
  let fallback :=
    chars ("policycheck_documents_"
           +:+ match crawlSessionId with Some id => pretty id | None => "all" end
           +:+ ".zip") in
  (forall failure,
     client_get_blob "/api/documents/download-all/zip" params = Throw failure ->
     downloadAllDocuments click_throws client_get_blob crawlSessionId br
     = (Throw (RequestFailed failure), br))
  /\
  (forall response,
     client_get_blob "/api/documents/download-all/zip" params = Normal response ->
     exists name,
       extractFilename (Some (content_disposition response)) fallback = Normal name /\
       (content_disposition response = [] -> name = fallback) /\
       (click_throws {| href := next_url br; download := name |} = false ->
        object_urls br !! next_url br = None ->
        exists br',
          downloadAllDocuments click_throws client_get_blob crawlSessionId br
          = (Normal tt, br') /\
          saves br' = saves br ++ [(next_url br, name)] /\
          object_urls br' = object_urls br)).
Proof.
  intros params fallback. split.
  - intros failure Hget. unfold downloadAllDocuments. fold params. rewrite Hget. reflexivity.
  - intros response Hget.
    destruct (extractFilename_returns (Some (content_disposition response)) fallback)
      as [name Hname].
    exists name. split; [exact Hname |]. split.
    + intros Hempty. rewrite Hempty in Hname. unfold extractFilename in Hname.
      injection Hname as <-. reflexivity.
    + intros Hclick Hfresh. unfold downloadAllDocuments. fold params. rewrite Hget.
      fold fallback. rewrite Hname.
      rewrite (DocumentsFacts.triggerBrowserDownload_releases _ _ _ _ Hclick Hfresh).
      eexists. split; [reflexivity |]. split; reflexivity.
Qed.

End Downloads.

(** ** The CSV export *)

Lemma csv_escape_cons c cell :
  csv_escape (c :: cell) =
    (if Ascii.eqb c double_quote then [double_quote; double_quote] else [c])
    ++ csv_escape cell.
Proof. reflexivity. Qed.

(** A doubled-quote text followed by a closing quote can be read in one
    way only. *)
Lemma csv_escape_unique cell1 : forall cell2 rest1 rest2,
  (forall r, rest1 <> double_quote :: r) ->
  (forall r, rest2 <> double_quote :: r) ->
  csv_escape cell1 ++ double_quote :: rest1 = csv_escape cell2 ++ double_quote :: rest2 ->
  cell1 = cell2 /\ rest1 = rest2.
Proof.
  induction cell1 as [|c1 cell1 IH]; intros [|c2 cell2] rest1 rest2 H1 H2 Heq.
  - simpl in Heq. injection Heq as ->. auto.
  - exfalso. rewrite csv_escape_cons in Heq. simpl in Heq.
    destruct (Ascii.eqb_spec c2 double_quote) as [-> | Hne]; simpl in Heq.
    + injection Heq as Heq. exact (H1 _ Heq).
    + injection Heq as Hc _. congruence.
  - exfalso. rewrite csv_escape_cons in Heq. simpl in Heq.
    destruct (Ascii.eqb_spec c1 double_quote) as [-> | Hne]; simpl in Heq.
    + injection Heq as Heq. exact (H2 _ (eq_sym Heq)).
    + injection Heq as Hc _. congruence.
  - rewrite !csv_escape_cons in Heq.
    destruct (Ascii.eqb_spec c1 double_quote) as [-> | Hne1];
      destruct (Ascii.eqb_spec c2 double_quote) as [-> | Hne2]; simpl in Heq.
    + injection Heq as Heq. destruct (IH _ _ _ H1 H2 Heq) as [-> ->]. auto.
    + injection Heq as Hc _. congruence.
    + injection Heq as Hc _. congruence.
    + injection Heq as -> Heq. destruct (IH _ _ _ H1 H2 Heq) as [-> ->]. auto.
Qed.

Lemma csv_row_cons cell cells :
  csv_row (cell :: cells) =
    csv_cell cell ++ match cells with [] => [] | _ :: _ => comma :: csv_row cells end.
Proof. unfold csv_row. destruct cells; simpl; [rewrite app_nil_r |]; reflexivity. Qed.

(** X19.  A line of the export determines its cells: two rows with the same
    line have the same cells, whatever quotes, commas and line breaks the
    cells hold. *)
Theorem csv_row_injective cells1 : forall cells2,
  csv_row cells1 = csv_row cells2 ->
  cells1 = cells2.
Proof.
  induction cells1 as [|cell1 cells1 IH]; intros [|cell2 cells2] Heq.
  - reflexivity.
  - rewrite csv_row_cons in Heq. discriminate Heq.
  - rewrite csv_row_cons in Heq. discriminate Heq.
  - rewrite !csv_row_cons in Heq. unfold csv_cell in Heq.
    cbn [app] in Heq. injection Heq as Heq. rewrite <- !app_assoc in Heq. cbn [app] in Heq.
    apply csv_escape_unique in Heq as [-> Hrest].
    + destruct cells1 as [|c1 cells1], cells2 as [|c2 cells2]; try discriminate Hrest.
      * reflexivity.
      * injection Hrest as Hrest. f_equal. apply IH. exact Hrest.
    + intros r. destruct cells1; discriminate.
    + intros r. destruct cells2; discriminate.
Qed.

End DownloadFacts.

(** * The library page *)

Module LibraryFacts.
Import Documents Library.

Lemma ceil_div_nonnegative a b : (0 <= a)%Z -> (0 < b)%Z -> (0 <= ceil_div a b)%Z.
Proof. apply NumberFacts.ceil_div_of_count. Qed.

Lemma or_number_nonnegative a b :
  (forall n, a = Some n -> (0 <= n)%Z) -> (0 <= b)%Z -> (0 <= or_number a b)%Z.
Proof.
  intros Ha Hb. unfold or_number. destruct a as [n|]; [| exact Hb].
  destruct (n =? 0)%Z; [exact Hb | apply Ha; reflexivity].
Qed.

Section Page.

Variable Document : Type.

Lemma load_pages_positive answer (v : View Document) :
  plausible answer ->
  (1 <= pages v)%Z ->
  (1 <= pages (load Document (fun _ _ => answer) v))%Z
  /\ page (load Document (fun _ _ => answer) v) = page v.
Proof.
  intros Hplausible Hpages. unfold load, getDocuments.
  destruct answer as [response_data | failure]; simpl; [| split; [lia | reflexivity]].
  split; [| reflexivity].
  set (data := default Payload.empty response_data).
  assert (Hdata : (forall t, Payload.total data = Some t -> (0 <= t)%Z) /\
                  (forall l, Payload.limit data = Some l -> (0 <= l)%Z)).
  { unfold data. destruct response_data as [d|]; [exact Hplausible |].
    simpl. split; intros ? [=]. }
  destruct Hdata as [Htotal Hlimit].
  set (t := or_number (Payload.total data) 0).
  set (l := or_number (Payload.limit data) 20).
  assert (Ht : (0 <= t)%Z) by (apply or_number_nonnegative; [exact Htotal | lia]).
  assert (Hl : (0 < l)%Z).
  { assert (0 <= l)%Z by (apply or_number_nonnegative; [exact Hlimit | lia]).
    assert (l <> 0%Z) by (apply DocumentsFacts.or_number_nonzero; discriminate).
    lia. }
  pose proof (ceil_div_nonnegative t l Ht Hl).
  destruct (Z.eqb_spec (ceil_div t l) 0); lia.
Qed.

(** X20.  Paging in the library.  (1) Whatever the user does and whatever the
    requests come back with, as long as no answer has a negative total or
    limit, the page number and the page count stay at 1 or above.
    (2) [Previous] and [Next] keep a page number that is between 1 and the
    page count there.  (3) After a load whose request failed the page
    shows no documents, a total of 0 and one page. *)
Theorem library_paging :
  (forall steps (v : View Document),
     (1 <= page v)%Z -> (1 <= pages v)%Z ->
     Forall (fun step => plausible (snd step)) steps ->
     (1 <= page (session Document steps v))%Z /\
     (1 <= pages (session Document steps v))%Z)
  /\
  (forall (v : View Document),
     (1 <= page v <= pages v)%Z ->
     (1 <= page (handle Document Previous v) <= pages v)%Z /\
     (1 <= page (handle Document Next v) <= pages v)%Z)
  /\
  (forall failure (v : View Document),
     docs (load Document (fun _ _ => Throw failure) v) = [] /\
     total (load Document (fun _ _ => Throw failure) v) = 0%Z /\
     pages (load Document (fun _ _ => Throw failure) v) = 1%Z /\
     loading (load Document (fun _ _ => Throw failure) v) = false).
Proof.
  split; [| split].
  - induction steps as [|[event answer] steps IH]; intros v Hpage Hpages Hall.
    + simpl. auto.
    + apply Forall_cons in Hall as [Hanswer Hall]. simpl.
      assert (Hhandled : (1 <= page (handle Document event v))%Z /\
                         (1 <= pages (handle Document event v))%Z).
      { destruct event; simpl; lia. }
      destruct Hhandled as [Hp1 Hp2].
      destruct (load_pages_positive answer (handle Document event v) Hanswer Hp2)
        as [Hloaded Hsame].
      destruct (reloads Document v (handle Document event v)).
      * apply IH; [rewrite Hsame; exact Hp1 | exact Hloaded | exact Hall].
      * apply IH; [exact Hp1 | exact Hp2 | exact Hall].
  - intros v Hin. simpl. lia.
  - intros failure v. unfold load, getDocuments. simpl. auto.
Qed.

End Page.

End LibraryFacts.

(** * The facts above at sample inputs *)

Module Instances.
Import ToastBus.

Lemma subscribeToasts_registers_last_witness :
  registered (listeners (fst (subscribeToasts 2 (Samples.bus_with [1%nat])))) = [1%nat; 2%nat]
  /\
  registered
    (listeners (snd (subscribeToasts 2 (Samples.bus_with [1%nat]))
                  (fst (subscribeToasts 2 (Samples.bus_with [1%nat])))))
  = [1%nat].
Proof.
  destruct (ChannelFacts.subscribeToasts_registers_last 2 (Samples.bus_with [1%nat]))
    as [_ Hnew].
  apply Hnew. simpl. intros [H | []]. discriminate H.
Defined.




Lemma sample_never_registers_first :
  forall l', ~ In (Subscribe 1%nat) (Samples.registering_body l').
Proof.
  intros l'. unfold Samples.registering_body.
  destruct (Nat.eqb l' 1); simpl; [intros [H | []]; discriminate H | intros []].
Defined.

Lemma publishToast_calls_at_most_once_witness :
  exists b' calls,
    publishToast Samples.registering_body 3 Samples.hello (Samples.bus_with [1%nat]) = Some b' /\
    received b' = received (Samples.bus_with [1%nat]) ++ calls /\
    (length (filter (fun c => fst c = 1%nat) calls) <= 1)%nat.
Proof.
  eexists.
  assert (Hnodup : NoDup (registered (listeners (Samples.bus_with [1%nat])))).
  { simpl. repeat constructor. intros H. inversion H. }
  destruct (ChannelFacts.publishToast_calls_at_most_once Samples.registering_body
              1%nat 3 Samples.hello (Samples.bus_with [1%nat]) _
              Hnodup sample_never_registers_first eq_refl)
    as (calls & Hrec & Hcount).
  exists calls. split; [reflexivity |]. split; [exact Hrec | exact Hcount].
Defined.

Import Client.

Lemma changing_keys_are_all_delivered_witness :
  exists w',
    fire_all ascii_trim Samples.quiet_body 2
      [(10000%Z, Samples.server_error); (10001%Z, Samples.not_found);
       (10002%Z, Samples.server_error)]
      (Samples.world_at "/library") = Some w' /\
    published (bus w') =
      [error_toast ascii_trim Samples.server_error;
       error_toast ascii_trim Samples.not_found;
       error_toast ascii_trim Samples.server_error].
Proof.
  apply (InterceptorFacts.changing_keys_are_all_delivered ascii_trim Samples.quiet_body 2
           [(10000%Z, Samples.server_error); (10001%Z, Samples.not_found);
            (10002%Z, Samples.server_error)]
           (Samples.world_at "/library")).
  - intros l. reflexivity.
  - simpl. lia.
  - intros t failure Hin. simpl in Hin.
    destruct Hin as [H | [H | [H | []]]]; injection H as _ <-; split; discriminate.
  - simpl. repeat split; intros H; vm_compute in H; discriminate H.
Defined.


Lemma no_credentials_after_unauthorized_witness :
  exists r w',
    response_onRejected ascii_trim Samples.quiet_body 2 Samples.unauthorized
      (Samples.world_at "/library") = Some (r, w') /\
    localStorage w' !! "access_token" = None /\
    localStorage w' !! "theme" = Some "dark" /\
    request_onFulfilled ascii_toUpperCase Samples.post_request w' = Samples.post_request.
Proof.
  destruct (response_onRejected ascii_trim Samples.quiet_body 2 Samples.unauthorized
              (Samples.world_at "/library")) as [[r w'] |] eqn:Hrun;
    [| vm_compute in Hrun; discriminate Hrun].
  destruct (InterceptorFacts.no_credentials_after_unauthorized ascii_trim ascii_toUpperCase
              Samples.quiet_body 2 Samples.unauthorized (Samples.world_at "/library") r w'
              Samples.post_request eq_refl Hrun)
    as (Htoken & _ & _ & Hother & Hrequest).
  exists r, w'. split; [reflexivity |]. split; [exact Htoken |].
  split; [| exact Hrequest].
  rewrite Hother; [reflexivity | discriminate | discriminate | discriminate].
Defined.

Lemma second_unauthorized_repeats_witness :
  exists r1 w1 r2 w2,
    response_onRejected ascii_trim Samples.quiet_body 2 Samples.unauthorized
      (Samples.world_at "/library") = Some (r1, w1) /\
    response_onRejected ascii_trim Samples.quiet_body 2 Samples.aborted_unauthorized w1
      = Some (r2, w2) /\
    localStorage w2 = localStorage w1 /\
    effects w2 =
      [RemoveItem "access_token"; RemoveItem "csrf_token"; RemoveItem "user";
       AssignHref "/login";
       RemoveItem "access_token"; RemoveItem "csrf_token"; RemoveItem "user";
       AssignHref "/login"].
Proof.
  destruct (response_onRejected ascii_trim Samples.quiet_body 2 Samples.unauthorized
              (Samples.world_at "/library")) as [[r1 w1] |] eqn:Hfirst;
    [| vm_compute in Hfirst; discriminate Hfirst].
  destruct (response_onRejected ascii_trim Samples.quiet_body 2 Samples.aborted_unauthorized
              w1) as [[r2 w2] |] eqn:Hsecond.
  - destruct (InterceptorFacts.second_unauthorized_repeats ascii_trim Samples.quiet_body 2
                Samples.unauthorized Samples.aborted_unauthorized
                (Samples.world_at "/library") r1 w1 r2 w2 eq_refl eq_refl Hfirst Hsecond)
      as [Hstore Heffects].
    exists r1, w1, r2, w2. split; [reflexivity |]. split; [exact Hsecond |].
    split; [exact Hstore |]. rewrite Heffects.
    vm_compute in Hfirst. injection Hfirst as _ <-. reflexivity.
  - exfalso. vm_compute in Hfirst. injection Hfirst as _ <-.
    vm_compute in Hsecond. discriminate Hsecond.
Defined.

Import Documents.

Lemma extended_form_wins_witness :
  extractFilename
    (Some (Samples.plain_parameter ++ chars "filename*=UTF-8''"
           ++ encodeURIComponent Samples.accented_name ++ chars "; size=3"))
    (chars "document_7.pdf")
  = Normal Samples.accented_name.
Proof.
  apply (DownloadFacts.extended_form_wins Samples.plain_parameter Samples.accented_name
           (chars "; size=3") (chars "document_7.pdf")).
  - unfold Samples.plain_parameter. cbn. repeat constructor; discriminate.
  - exact DocumentsFacts.utf8_accented_name.
  - discriminate.
  - right. eexists. reflexivity.
Defined.

Lemma plain_form_value_witness :
  extractFilename (Some (chars "attachment; size=5; filename=a.pdf")) (chars "document_7.pdf")
  = Normal (chars "a.pdf")
  /\
  extractFilename
    (Some (chars "attachment; size=5; filename=" ++ [double_quote] ++ chars "a.pdf"
           ++ [double_quote] ++ chars "; filename=b.pdf"))
    (chars "document_7.pdf")
  = Normal (chars "a.pdf").
Proof.
  split.
  - destruct (DownloadFacts.plain_form_value (chars "attachment; size=5; ") (chars "a.pdf") []
                (chars "document_7.pdf")) as (_ & _ & Hbare).
    + cbn. repeat constructor; discriminate.
    + reflexivity.
    + cbn. repeat constructor; discriminate.
    + discriminate.
    + exact Hbare.
  - destruct (DownloadFacts.plain_form_value (chars "attachment; size=5; ") (chars "a.pdf")
                (chars "; filename=b.pdf") (chars "document_7.pdf")) as (Hquoted & _).
    + cbn. repeat constructor; discriminate.
    + reflexivity.
    + cbn. repeat constructor; discriminate.
    + discriminate.
    + exact Hquoted.
Defined.


Lemma getDocumentDownloadUrl_token_witness :
  exists value,
    getDocumentDownloadUrl [] 42 (Some Samples.accented_name)
    = chars "/api/documents/42/download?token=" ++ value /\
    decodeURIComponent value = Normal Samples.accented_name.
Proof.
  destruct (DownloadFacts.getDocumentDownloadUrl_token [] 42 Samples.accented_name)
    as (value & Hurl & _ & Hback).
  - exact DocumentsFacts.utf8_accented_name.
  - discriminate.
  - exists value. split; [rewrite Hurl; reflexivity | exact Hback].
Defined.

Lemma downloadDocument_saves_once_witness :
  exists br',
    downloadDocument Samples.click_works Samples.serves_policy 42 Samples.fresh_browser
    = (Normal tt, br') /\
    saves br' = [(next_url Samples.fresh_browser, chars "policy.pdf")] /\
    object_urls br' = object_urls Samples.fresh_browser.
Proof.
  destruct (DownloadFacts.downloadDocument_saves_once Samples.click_works
              Samples.serves_policy 42 Samples.fresh_browser) as [_ Hanswered].
  destruct (Hanswered _ eq_refl) as (name & Hname & _ & Hsave).
  vm_compute in Hname. injection Hname as <-.
  destruct (Hsave eq_refl eq_refl) as (br' & Hrun & Hsaves & Hurls).
  exists br'. split; [exact Hrun |]. split; [exact Hsaves | exact Hurls].
Defined.

Lemma downloadAllDocuments_saves_once_witness :
  exists br',
    downloadAllDocuments Samples.click_works Samples.serves_bare (Some 0%Z)
      Samples.fresh_browser
    = (Normal tt, br') /\
    saves br' = [(next_url Samples.fresh_browser, chars "policycheck_documents_0.zip")].
Proof.
  destruct (DownloadFacts.downloadAllDocuments_saves_once Samples.click_works
              Samples.serves_bare (Some 0%Z) Samples.fresh_browser) as [_ Hanswered].
  destruct (Hanswered _ eq_refl) as (name & _ & Hfallback & Hsave).
  rewrite (Hfallback eq_refl) in Hsave.
  destruct (Hsave eq_refl eq_refl) as (br' & Hrun & Hsaves & _).
  exists br'. split; [exact Hrun | exact Hsaves].
Defined.

Lemma csv_row_injective_witness :
  csv_row [chars "a,b"] <> csv_row [chars "a"; chars "b"].
Proof.
  intros Hsame. apply DownloadFacts.csv_row_injective in Hsame. discriminate Hsame.
Defined.

Import Library.

Lemma library_paging_witness :
  page (session string (firstn 3 Samples.browsing) (initial string)) = 3%Z /\
  pages (session string (firstn 3 Samples.browsing) (initial string)) = 3%Z /\
  page (session string Samples.browsing (initial string)) = 2%Z /\
  pages (session string Samples.browsing (initial string)) = 1%Z /\
  docs (session string Samples.browsing (initial string)) = [] /\
  (1 <= page (session string Samples.browsing (initial string)))%Z /\
  (1 <= pages (session string Samples.browsing (initial string)))%Z.
Proof.
  do 5 (split; [reflexivity |]).
  destruct (LibraryFacts.library_paging string) as [Hsession _].
  apply Hsession.
  - simpl. lia.
  - simpl. lia.
  - unfold Samples.browsing. repeat constructor; simpl; intros ? [= <-]; lia.
Defined.

End Instances.
